(** * syz-logparser: a shallow embedding of tools/syz-logparser/logparser.go

    The command-line tool reads a kernel console log, asks the report package
    for the crash reports it contains and prints them, as text or as JSON.
    The tool's own functions ([usage], [main], [parseReports],
    [loadReporterConfig], [emitJSON], [printHuman]) are embedded below as
    programs of a small monad over the process state; the packages they
    import are an interface, [Packages].

    What the embedding fixes:
    - a Go [int] is a [Z]; the only arithmetic on one is [idx+1] and
      [len(x)-1], on lengths of slices, which do not wrap;
    - the process state is the text written to the two output streams,
      whether writes to the standard output fail, and the calls made to the
      imported packages, in order;
    - [main] starts from a command line that [flag.Parse] accepts: the
      flags given and the positional arguments;
    - [os.Exit], and a run-time panic on an index out of range, end a
      program where they occur. *)

From Stdlib Require Import List String Ascii ZArith Lia Bool.
From Stdlib Require Import DecimalString.
Import ListNotations.
Local Open Scope string_scope.
Local Open Scope Z_scope.

(** ** Go values *)

(** A Go [string] is a sequence of bytes: [String.string].  A [[]byte] is a
    list of bytes, so that [len(b) == 0] is [b = []] for a nil and for an
    empty slice alike. *)
Definition bytes := list ascii.

(** [string(b)] for a byte slice [b]. *)
Definition string_of_bytes (b : bytes) : string := string_of_list_ascii b.

(** The characters the tool writes by their codes. *)
Definition LF : ascii := "010"%char.
Definition nl : string := String LF "".
Definition dquote : string := String "034"%char "".

(** [len(s)] as a Go [int]. *)
Definition len {A} (l : list A) : Z := Z.of_nat (List.length l).

(** [s[i]] on a slice: [None] stands for the run-time panic
    "index out of range". *)
Definition index {A} (l : list A) (i : Z) : option A :=
  if (i <? 0) || (len l <=? i) then None else nth_error l (Z.to_nat i).

(** [%d] of an [int] and [%v] of a [bool]. *)
Definition fmt_d (z : Z) : string := NilZero.string_of_int (Z.to_int z).
Definition fmt_bool (b : bool) : string := if b then "true" else "false".

(** [strings.Join(elems, sep)]. *)
Definition strings_Join (elems : list string) (sep : string) : string :=
  String.concat sep elems.

(** [strings.Split(s, sep)] for a separator of one byte, the only use the
    tool makes of it: the substrings between the separators, [[s]] when
    there is none (so never an empty slice). *)
Fixpoint split_acc (sep : ascii) (s : string) (cur : string) : list string :=
  match s with
  | EmptyString => [cur]
  | String c rest =>
      if Ascii.eqb c sep then cur :: split_acc sep rest ""
      else split_acc sep rest (cur ++ String c "")
  end.
Definition strings_Split (s : string) (sep : ascii) : list string :=
  split_acc sep s "".

(** ** The process: output streams, exit, panic *)

(** The collaborators the tool calls, recorded in call order. *)
Inductive Call : Type :=
| CallLoadFile (path : string)
| CallTargetsGet (os arch : string)
| CallNewReporter
| CallReadFile (path : string)
| CallParse
| CallParseAll
| CallIsSuppressed.

(** What the operator can observe of a run.  [stdout_err] is the state of
    the standard output: [Some e] when writes to it fail with error [e]. *)
Record World : Type := mkWorld {
  stdout : string;
  stderr : string;
  calls : list Call;
  stdout_err : option string
}.

Definition world0 : World := mkWorld "" "" [] None.

(** How a piece of the program ends: it returns, the process exits with a
    status, or the run time panics. *)
Inductive Res (A : Type) : Type :=
| Ret (a : A)
| Exit (code : Z)
| Panic.
Arguments Ret {A} a.
Arguments Exit {A} code.
Arguments Panic {A}.

Definition M (A : Type) : Type := World -> Res A * World.

Definition ret {A} (a : A) : M A := fun w => (Ret a, w).

Definition bind {A B} (m : M A) (k : A -> M B) : M B :=
  fun w =>
    match m w with
    | (Ret a, w') => k a w'
    | (Exit c, w') => (Exit c, w')
    | (Panic, w') => (Panic, w')
    end.

Declare Scope go_scope.
Delimit Scope go_scope with go.
Notation "x <- c1 ;; c2" := (bind c1 (fun x => c2))
  (at level 100, c1 at next level, right associativity) : go_scope.
Notation "c1 ;; c2" := (bind c1 (fun _ => c2))
  (at level 100, right associativity) : go_scope.
Local Open Scope go_scope.

(** [os.Exit(code)] and a run-time panic. *)
Definition os_Exit {A} (code : Z) : M A := fun w => (Exit code, w).
Definition panic {A} : M A := fun w => (Panic, w).

(** A write to the standard output: it appends, or fails with the stream's
    error and writes nothing. *)
Definition os_Stdout_Write (s : string) : M (option string) :=
  fun w =>
    match stdout_err w with
    | Some e => (Ret (Some e), w)
    | None =>
        (Ret None,
         mkWorld (stdout w ++ s) (stderr w) (calls w) (stdout_err w))
    end.

(** [fmt.Printf] and [fmt.Println] on the standard output, with the text
    already formatted: the write's error is dropped. *)
Definition Printf (s : string) : M unit :=
  _ <- os_Stdout_Write s ;; ret tt.
Definition Println (s : string) : M unit := Printf (s ++ nl).

(** [fmt.Fprintf(os.Stderr, ...)]. *)
Definition Eprintf (s : string) : M unit :=
  fun w =>
    (Ret tt, mkWorld (stdout w) (stderr w ++ s) (calls w) (stdout_err w)).

(** Records a call of a collaborator. *)
Definition called (c : Call) : M unit :=
  fun w =>
    (Ret tt, mkWorld (stdout w) (stderr w) (calls w ++ [c]) (stdout_err w)).

Definition is_panic {A} (r : Res A) : bool :=
  match r with Panic => true | _ => false end.

(** A call that returns a value or an error; the error is its text, as
    [%v] prints it. *)
Inductive result (A : Type) : Type :=
| Ok (a : A)
| Err (e : string).
Arguments Ok {A} a.
Arguments Err {A} e.

(** Reads [l[i]] or panics. *)
Definition at_index {A} (l : list A) (i : Z) : M A :=
  match index l i with
  | Some x => ret x
  | None => panic
  end.

(** ** The imported packages *)

(** The types of the imported packages whose declarations the tool only
    names: the reporter and the executor metadata and crash type of
    pkg/report, the target descriptor of sys/targets, and the settings of
    mgrconfig.Config that the tool never reads. *)
Class PkgTypes : Type := {
  Reporter : Type;
  ExecutorInfo : Type;
  CrashType : Type;
  Target : Type;
  Settings : Type
}.

(** pkg/report's Report, with the fields the tool reads.  Go's field [Type]
    is [Type_] and its field [Report], the body, is [Report_]. *)
Module report.
Section Data.
Context {T : PkgTypes}.

Record Report : Type := mkReport {
  Title : string;
  AltTitles : list string;
  Type_ : CrashType;
  Frame : string;
  StartPos : Z;
  EndPos : Z;
  SkipPos : Z;
  Suppressed : bool;
  Corrupted : bool;
  CorruptedReason : string;
  Executor : option ExecutorInfo;
  Report_ : bytes
}.

End Data.
End report.

(** mgrconfig.Config: the target string, the derived target fields that
    [loadReporterConfig] writes, and the rest of the settings. *)
Module mgrconfig.
Section Data.
Context {T : PkgTypes}.

Record Config : Type := mkConfig {
  RawTarget : string;
  TargetOS : string;
  TargetArch : string;
  TargetVMArch : string;
  SysTarget : option Target;
  other : Settings
}.

End Data.
End mgrconfig.

(** A JSON value as encoding/json builds it from a Go value. *)
#[local] Set Warnings "-register-all".
Inductive json : Type :=
| JNull
| JBool (b : bool)
| JNum (z : Z)
| JString (s : string)
| JArray (items : list json)
| JObject (fields : list (string * json)).

(** What the tool imports: functions and constants of pkg/report,
    sys/targets, pkg/mgrconfig, pkg/config, pkg/tool, and of Go's runtime,
    os, flag and encoding/json. *)
Class Packages {T : PkgTypes} : Type := {
  (* pkg/report *)
  report_NewReporter : mgrconfig.Config -> result Reporter;
  Reporter_Parse : Reporter -> bytes -> option report.Report;
  report_ParseAll : Reporter -> bytes -> list report.Report;
  report_IsSuppressed : Reporter -> bytes -> bool;
  Type_String : CrashType -> string;
  (* sys/targets; targets_List is the list as %v prints it *)
  targets_Linux : string;
  targets_Get : string -> string -> option Target;
  targets_List : string;
  (* runtime *)
  runtime_GOARCH : string;
  (* pkg/mgrconfig and pkg/config *)
  mgrconfig_DefaultValues : mgrconfig.Config;
  config_LoadFile : string -> mgrconfig.Config -> result mgrconfig.Config;
  CompleteKernelDirs : mgrconfig.Config -> mgrconfig.Config;
  (* os: the file system the process sees *)
  os_ReadFile : string -> result bytes;
  (* flag: what PrintDefaults prints for the registered flags *)
  flag_PrintDefaults : string;
  (* encoding/json: a string as a JSON string literal, and the value built
     from the executor metadata *)
  json_quote : string -> string;
  ExecutorInfo_json : ExecutorInfo -> json;
  (* pkg/tool: how Failf reports a message, and the status it exits with *)
  tool_report : string -> string;
  tool_status : positive
}.

Section Tool.
Context {T : PkgTypes} {P : Packages}.

(** Modelled from the spec: pkg/tool's [Failf] and [Fail], which are not
    under src/.  A fatal error is reported to the operator and the process
    exits non-zero (spec, section 7): the message goes to the standard error
    and the process exits with a positive status. *)
Definition tool_Failf {A} (msg : string) : M A :=
  Eprintf (tool_report msg) ;; os_Exit (Z.pos tool_status).
Definition tool_Fail {A} (err : string) : M A := tool_Failf err.

(** *** Flags *)

(** The five flag variables of the tool. *)
Record Flags : Type := mkFlags {
  flagOS : string;
  flagArch : string;
  flagConfig : string;
  flagJSON : bool;
  flagAll : bool
}.

(** The values the [var] block registers as defaults. *)
Definition flagDefaults : Flags :=
  mkFlags targets_Linux runtime_GOARCH "" false false.

(** One flag of the tool given on the command line, with its value. *)
Inductive FlagArg : Type :=
| OptOS (v : string)
| OptArch (v : string)
| OptConfig (v : string)
| OptJSON (b : bool)
| OptAll (b : bool).

Definition flag_Set (fl : Flags) (a : FlagArg) : Flags :=
  match a with
  | OptOS v =>
      mkFlags v (flagArch fl) (flagConfig fl) (flagJSON fl) (flagAll fl)
  | OptArch v =>
      mkFlags (flagOS fl) v (flagConfig fl) (flagJSON fl) (flagAll fl)
  | OptConfig v =>
      mkFlags (flagOS fl) (flagArch fl) v (flagJSON fl) (flagAll fl)
  | OptJSON b =>
      mkFlags (flagOS fl) (flagArch fl) (flagConfig fl) b (flagAll fl)
  | OptAll b =>
      mkFlags (flagOS fl) (flagArch fl) (flagConfig fl) (flagJSON fl) b
  end.

(** A command line that [flag.Parse] accepts: the tool's flags it carries,
    in order, and the positional arguments left after them. *)
Record CommandLine : Type := mkCommandLine {
  options : list FlagArg;
  args : list string
}.

(** [flag.Parse()]: every flag keeps its default unless the command line
    sets it; a flag given twice keeps the last value. *)
Definition flag_Parse (cl : CommandLine) : Flags :=
  fold_left flag_Set (options cl) flagDefaults.

Definition flag_NArg (cl : CommandLine) : Z := len (args cl).

(** [flag.Arg(i)]: the empty string when there is no such argument. *)
Definition flag_Arg (cl : CommandLine) (i : Z) : string :=
  match index (args cl) i with
  | Some a => a
  | None => ""
  end.

(** *** usage *)

Definition usage : M unit :=
  Eprintf ("usage: syz-logparser [flags] kernel_log_file" ++ nl) ;;
  Eprintf flag_PrintDefaults.

(** *** Calls of the collaborators, recorded *)

Definition call_LoadFile (path : string) (cfg : mgrconfig.Config)
  : M (result mgrconfig.Config) :=
  called (CallLoadFile path) ;; ret (config_LoadFile path cfg).
Definition call_targets_Get (os arch : string) : M (option Target) :=
  called (CallTargetsGet os arch) ;; ret (targets_Get os arch).
Definition call_NewReporter (cfg : mgrconfig.Config) : M (result Reporter) :=
  called CallNewReporter ;; ret (report_NewReporter cfg).
Definition call_ReadFile (path : string) : M (result bytes) :=
  called (CallReadFile path) ;; ret (os_ReadFile path).
Definition call_Parse (r : Reporter) (d : bytes) : M (option report.Report) :=
  called CallParse ;; ret (Reporter_Parse r d).
Definition call_ParseAll (r : Reporter) (d : bytes) : M (list report.Report) :=
  called CallParseAll ;; ret (report_ParseAll r d).
Definition call_IsSuppressed (r : Reporter) (d : bytes) : M bool :=
  called CallIsSuppressed ;; ret (report_IsSuppressed r d).

(** *** parseReports *)

Definition parseReports (fl : Flags) (reporter : Reporter) (logData : bytes)
  : M (list report.Report) :=
  if flagAll fl then call_ParseAll reporter logData
  else
    rep <- call_Parse reporter logData ;;
    match rep with
    | Some rep => ret [rep]
    | None => ret []
    end.

(** *** loadReporterConfig *)

Definition unknown_target (targetOS targetVMArch : string) : string :=
  "unknown target: " ++ targetOS ++ "/" ++ targetVMArch
  ++ " (supported: " ++ targets_List ++ ")".

Definition loadReporterConfig (fl : Flags) : M (result mgrconfig.Config) :=
  let cfg := mgrconfig_DefaultValues in
  loaded <- (if negb (flagConfig fl =? "")%string
             then call_LoadFile (flagConfig fl) cfg
             else ret (Ok cfg)) ;;
  match loaded with
  | Err err => ret (Err err)
  | Ok cfg =>
      let fromFlags := (flagOS fl, flagArch fl, flagArch fl) in
      chosen <- (if negb (mgrconfig.RawTarget cfg =? "")%string then
                   let parts :=
                     strings_Split (mgrconfig.RawTarget cfg) "/"%char in
                   if len parts >=? 2 then
                     p0 <- at_index parts 0 ;;
                     p1 <- at_index parts 1 ;;
                     pn <- at_index parts (len parts - 1) ;;
                     ret (p0, p1, pn)
                   else ret fromFlags
                 else ret fromFlags) ;;
      let '(targetOS, targetVMArch, targetArch) := chosen in
      sysTarget <- call_targets_Get targetOS targetVMArch ;;
      match sysTarget with
      | None => ret (Err (unknown_target targetOS targetVMArch))
      | Some st =>
          ret (Ok (CompleteKernelDirs
                     (mgrconfig.mkConfig (targetOS ++ "/" ++ targetVMArch)
                               targetOS targetArch targetVMArch (Some st)
                               (mgrconfig.other cfg))))
      end
  end.

(** *** serializedReport and its JSON form *)

Record serializedReport : Type := mkSerialized {
  Title : string;
  AltTitles : list string;
  Type_ : string;
  Frame : string;
  StartPos : Z;
  EndPos : Z;
  SkipPos : Z;
  Suppressed : bool;
  Corrupted : bool;
  CorruptedReason : string;
  Executor : option ExecutorInfo;
  Report : string
}.

(** The zero value, with which [make] fills a new slice. *)
Definition zero_serializedReport : serializedReport :=
  mkSerialized "" [] "" "" 0 0 0 false false "" None "".

(** [make([]T, n)]. *)
Definition make {A} (zero : A) (n : Z) : list A := repeat zero (Z.to_nat n).

(** An [omitempty] field: left out when [empty], else the pair. *)
Definition omitempty (empty : bool) (key : string) (v : json)
  : list (string * json) :=
  if empty then [] else [(key, v)].

(** encoding/json on a [serializedReport], read off the struct tags: the
    fields in declaration order under their tag names; a field tagged
    [omitempty] is left out when it is an empty slice, an empty string or a
    nil pointer. *)
Definition marshal_serializedReport (s : serializedReport) : json :=
  JObject
    ([("title", JString (Title s))]
     ++ omitempty (len (AltTitles s) =? 0) "alt_titles"
          (JArray (map JString (AltTitles s)))
     ++ [("type", JString (Type_ s))]
     ++ omitempty (Frame s =? "")%string "frame" (JString (Frame s))
     ++ [("start_pos", JNum (StartPos s));
         ("end_pos", JNum (EndPos s));
         ("skip_pos", JNum (SkipPos s));
         ("suppressed", JBool (Suppressed s));
         ("corrupted", JBool (Corrupted s))]
     ++ omitempty (CorruptedReason s =? "")%string "corrupted_reason"
          (JString (CorruptedReason s))
     ++ match Executor s with
        | None => []
        | Some e => [("executor", ExecutorInfo_json e)]
        end
     ++ [("report", JString (Report s))]).

(** A slice made by [make] is not nil: it is encoded as an array. *)
Definition marshal_out (out : list serializedReport) : json :=
  JArray (map marshal_serializedReport out).

(** *** encoding/json's Encoder *)

Record Encoder : Type := mkEncoder {
  indentPrefix : string;
  indentValue : string
}.

(** [json.NewEncoder(os.Stdout)]: no indentation is set. *)
Definition json_NewEncoder : Encoder := mkEncoder "" "".

Definition SetIndent (enc : Encoder) (prefix indent : string) : Encoder :=
  mkEncoder prefix indent.

Fixpoint repeat_string (s : string) (n : nat) : string :=
  match n with
  | O => ""
  | S k => s ++ repeat_string s k
  end.

(** The encoder indents when a prefix or an indent is set. *)
Definition indenting (enc : Encoder) : bool :=
  negb (indentPrefix enc =? "")%string || negb (indentValue enc =? "")%string.

(** The line break before an item at nesting [depth]: a newline, the prefix
    and [depth] copies of the indent; nothing when the encoder is compact. *)
Definition newline (enc : Encoder) (depth : nat) : string :=
  if indenting enc
  then nl ++ indentPrefix enc ++ repeat_string (indentValue enc) depth
  else "".

Definition colon (enc : Encoder) : string :=
  if indenting enc then ": " else ":".

(** Items between brackets: an empty array or object stays on one line;
    otherwise each item goes on a line of its own one level deeper, and the
    closing bracket on a line at the outer level. *)
Definition bracketed (enc : Encoder) (depth : nat) (open close : string)
  (items : list string) : string :=
  match items with
  | [] => open ++ close
  | _ =>
      open ++ newline enc (S depth)
      ++ String.concat ("," ++ newline enc (S depth)) items
      ++ newline enc depth ++ close
  end.

(** A field of an object: its name between quotes, a colon, its value. *)
Definition field_text (enc : Encoder) (key value : string) : string :=
  dquote ++ key ++ dquote ++ colon enc ++ value.

(** The text of a value at nesting [depth].  Field names are written as
    they are: the names of the tags hold nothing that is escaped. *)
Fixpoint encode (enc : Encoder) (depth : nat) (v : json) : string :=
  match v with
  | JNull => "null"
  | JBool b => fmt_bool b
  | JNum z => fmt_d z
  | JString s => json_quote s
  | JArray items =>
      bracketed enc depth "[" "]" (map (encode enc (S depth)) items)
  | JObject fields =>
      bracketed enc depth "{" "}"
        (map (fun f => field_text enc (fst f) (encode enc (S depth) (snd f)))
           fields)
  end.

(** [enc.Encode(v)]: the text of the value and a newline, in one write to
    the standard output; the write's error is returned. *)
Definition Encode (enc : Encoder) (v : json) : M (option string) :=
  os_Stdout_Write (encode enc 0 v ++ nl).

(** *** emitJSON *)

(** [out[i] = x]: panics when [i] is out of range. *)
Fixpoint set_nth {A} (l : list A) (i : nat) (x : A) : option (list A) :=
  match l, i with
  | [], _ => None
  | _ :: l', O => Some (x :: l')
  | y :: l', S i' => option_map (cons y) (set_nth l' i' x)
  end.

Definition assign_index {A} (l : list A) (i : Z) (x : A) : M (list A) :=
  if i <? 0 then panic
  else match set_nth l (Z.to_nat i) x with
       | Some l' => ret l'
       | None => panic
       end.

Definition serialize (rep : report.Report) : serializedReport :=
  mkSerialized
    (report.Title rep)
    (report.AltTitles rep)
    (Type_String (report.Type_ rep))
    (report.Frame rep)
    (report.StartPos rep)
    (report.EndPos rep)
    (report.SkipPos rep)
    (report.Suppressed rep)
    (report.Corrupted rep)
    (report.CorruptedReason rep)
    (report.Executor rep)
    (string_of_bytes (report.Report_ rep)).

(** The [for i, rep := range reports] loop of [emitJSON], from index [i]. *)
Fixpoint emitJSON_loop (i : Z) (reports : list report.Report)
  (out : list serializedReport) : M (list serializedReport) :=
  match reports with
  | [] => ret out
  | rep :: rest =>
      out' <- assign_index out i (serialize rep) ;;
      emitJSON_loop (i + 1) rest out'
  end.

Definition emitJSON (reports : list report.Report) : M unit :=
  let out := make zero_serializedReport (len reports) in
  out <- emitJSON_loop 0 reports out ;;
  let enc := SetIndent json_NewEncoder "" "  " in
  err <- Encode enc (marshal_out out) ;;
  match err with
  | Some err => tool_Fail err
  | None => ret tt
  end.

(** *** printHuman *)

(** The body of the [for idx, rep := range reports] loop, then the rest of
    the loop; [n] is [len(reports)].  [idx+1] does not wrap: it is at most
    the length of a slice. *)
Fixpoint printHuman_loop (idx n : Z) (reports : list report.Report) : M unit :=
  match reports with
  | [] => ret tt
  | rep :: rest =>
      Printf ("Crash #" ++ fmt_d (idx + 1) ++ nl) ;;
      Printf ("Title: " ++ report.Title rep ++ nl) ;;
      Printf ("Type: " ++ Type_String (report.Type_ rep) ++ nl) ;;
      (if len (report.AltTitles rep) >? 0
       then Printf ("Alt titles: "
                    ++ strings_Join (report.AltTitles rep) ", " ++ nl)
       else ret tt) ;;
      (if negb (report.Frame rep =? "")%string
       then Printf ("Frame: " ++ report.Frame rep ++ nl)
       else ret tt) ;;
      Printf ("Range: [" ++ fmt_d (report.StartPos rep) ++ ", "
              ++ fmt_d (report.EndPos rep) ++ "], next "
              ++ fmt_d (report.SkipPos rep) ++ nl) ;;
      Printf ("Suppressed: " ++ fmt_bool (report.Suppressed rep) ++ nl) ;;
      Printf ("Corrupted: " ++ fmt_bool (report.Corrupted rep)) ;;
      (if negb (report.CorruptedReason rep =? "")%string
       then Printf (" (" ++ report.CorruptedReason rep ++ ")")
       else ret tt) ;;
      Printf (nl ++ nl) ;;
      let body := report.Report_ rep in
      (if len body =? 0 then Printf ("(empty report body)" ++ nl)
       else
         err <- os_Stdout_Write (string_of_bytes body) ;;
         match err with
         | Some err => tool_Fail err
         | None => ret tt
         end ;;
         last <- at_index body (len body - 1) ;;
         if negb (Ascii.eqb last LF) then Printf nl else ret tt) ;;
      (if idx + 1 <? n then Printf (nl ++ "---" ++ nl ++ nl) else ret tt) ;;
      printHuman_loop (idx + 1) n rest
  end.

Definition printHuman (reports : list report.Report) : M unit :=
  printHuman_loop 0 (len reports) reports.

(** *** main *)

(** [main] on a command line that [flag.Parse] accepts. *)
Definition main (cl : CommandLine) : M unit :=
  let fl := flag_Parse cl in
  (if negb (flag_NArg cl =? 1) then usage ;; os_Exit 1 else ret tt) ;;
  loaded <- loadReporterConfig fl ;;
  cfg <- match loaded with
         | Err err => tool_Failf ("failed to load config: " ++ err)
         | Ok cfg => ret cfg
         end ;;
  made <- call_NewReporter cfg ;;
  reporter <- match made with
              | Err err => tool_Failf ("failed to create reporter: " ++ err)
              | Ok reporter => ret reporter
              end ;;
  read <- call_ReadFile (flag_Arg cl 0) ;;
  logData <- match read with
             | Err err => tool_Failf ("failed to read log file: " ++ err)
             | Ok logData => ret logData
             end ;;
  reports <- parseReports fl reporter logData ;;
  if len reports =? 0 then
    if flagJSON fl then Println "[]"
    else
      Println "no crash reports found in log" ;;
      suppressed <- call_IsSuppressed reporter logData ;;
      if suppressed
      then Println "note: log matched suppression patterns for this target"
      else ret tt
  else if flagJSON fl then emitJSON reports
  else printHuman reports.

End Tool.

(** ** The iteration protocol of the report package *)

Section Protocol.
Context {T : PkgTypes}.

(** The single-parse sequence (scan, classify, annotate) of a reporter,
    started at a position of the buffer. *)
Variable parseFrom : Reporter -> bytes -> Z -> option report.Report.

(** Modelled from the spec: pkg/report's [Reporter.Parse], which is not
    under src/.  Section 4.6: Parse runs the single-parse sequence once,
    on the whole buffer, and returns at most one report. *)
Definition Parse_spec (r : Reporter) (buf : bytes) : option report.Report :=
  parseFrom r buf 0.

(** Modelled from the spec: pkg/report's [ParseAll], which is not under
    src/.  Section 4.6: ParseAll repeatedly invokes the single-parse
    sequence, starting each iteration at the previous result's skipPos
    (initial position 0), and terminates when an attempt yields none.
    [fuel] bounds the number of iterations. *)
Fixpoint ParseAll_from (fuel : nat) (r : Reporter) (buf : bytes) (pos : Z)
  : list report.Report :=
  match fuel with
  | O => []
  | S fuel' =>
      match parseFrom r buf pos with
      | None => []
      | Some rep => rep :: ParseAll_from fuel' r buf (report.SkipPos rep)
      end
  end.

(** Every match starts inside the buffer and the resume position is past
    the start (section 3), so there are at most [len(buf)+1] matches and
    this many iterations reach the attempt that yields none. *)
Definition ParseAll_spec (r : Reporter) (buf : bytes) : list report.Report :=
  ParseAll_from (S (S (List.length buf))) r buf 0.

(** The forward-progress guarantee of sections 3 and 4.6 for one buffer. *)
Definition forward_progress (r : Reporter) (buf : bytes) : Prop :=
  forall pos rep,
    parseFrom r buf pos = Some rep ->
    pos <= report.StartPos rep <= len buf
    /\ report.StartPos rep < report.SkipPos rep.

End Protocol.

(** A report package follows the protocol when its two entry points are
    the ones of section 4.6 over some single-parse sequence. *)
Definition follows_protocol {T : PkgTypes} (P : Packages)
  (parseFrom : Reporter -> bytes -> Z -> option report.Report) : Prop :=
  (forall r buf, Reporter_Parse r buf = Parse_spec parseFrom r buf)
  /\ (forall r buf, report_ParseAll r buf = ParseAll_spec parseFrom r buf).

(** ** Reading a run *)

(** The definitions of this part are not the tool's: they say what a run is
    expected to do, in the words of the tool's description, and the
    theorems compare the tool with them. *)

(** The worlds a run moves through. *)
Definition printed (w : World) (s : string) : World :=
  mkWorld (stdout w ++ s) (stderr w) (calls w) (stdout_err w).
Definition reported (w : World) (s : string) : World :=
  mkWorld (stdout w) (stderr w ++ s) (calls w) (stdout_err w).
Definition logged (w : World) (c : Call) : World :=
  mkWorld (stdout w) (stderr w) (calls w ++ [c]) (stdout_err w).

Section Reading.
Context {T : PkgTypes} {P : Packages}.

(** The flag is not on the command line. *)
Definition all_absent (cl : CommandLine) : bool :=
  forallb (fun a => match a with OptAll _ => false | _ => true end)
    (options cl).
Definition os_absent (cl : CommandLine) : bool :=
  forallb (fun a => match a with OptOS _ => false | _ => true end)
    (options cl).
Definition arch_absent (cl : CommandLine) : bool :=
  forallb (fun a => match a with OptArch _ => false | _ => true end)
    (options cl).

(** The call [parseReports] makes. *)
Definition parse_call (fl : Flags) : Call :=
  if flagAll fl then CallParseAll else CallParse.

(** A parse result as a sequence: empty when Parse yields none. *)
Definition single (rep : option report.Report) : list report.Report :=
  match rep with
  | Some rep => [rep]
  | None => []
  end.

(** The reports [parseReports] returns. *)
Definition parsed (fl : Flags) (reporter : Reporter) (logData : bytes)
  : list report.Report :=
  if flagAll fl then report_ParseAll reporter logData
  else single (Reporter_Parse reporter logData).

(** The two lines of the run that finds no report. *)
Definition no_reports_line : string := "no crash reports found in log" ++ nl.
Definition suppressed_note : string :=
  "note: log matched suppression patterns for this target" ++ nl.

(** The configuration [loadReporterConfig] holds after its optional load,
    and the world then: the default values when [-config] is not given,
    else what [config.LoadFile] read into them. *)
Definition settings_in_effect (fl : Flags) (w : World)
  (cfg : mgrconfig.Config) (w' : World) : Prop :=
  (flagConfig fl = "" /\ cfg = mgrconfig_DefaultValues /\ w' = w)
  \/ (flagConfig fl <> ""
      /\ config_LoadFile (flagConfig fl) mgrconfig_DefaultValues = Ok cfg
      /\ w' = logged w (CallLoadFile (flagConfig fl))).

(** The target the tool settles on, in the words of its description: the
    configuration's target string when it is non-empty and has at least
    two parts between slashes (OS the first part, VM architecture the
    second, architecture the last), else the flags, [-arch] for both
    architectures. *)
Definition chosen_target (fl : Flags) (cfg : mgrconfig.Config)
  : string * string * string :=
  let parts := strings_Split (mgrconfig.RawTarget cfg) "/"%char in
  if negb (mgrconfig.RawTarget cfg =? "")%string
     && (2 <=? List.length parts)%nat
  then (hd "" parts, nth 1 parts "", last parts "")
  else (flagOS fl, flagArch fl, flagArch fl).

(** The configuration [loadReporterConfig] returns for a resolved target. *)
Definition resolved_config (cfg : mgrconfig.Config)
  (target : string * string * string) (st : Target) : mgrconfig.Config :=
  let '(targetOS, targetVMArch, targetArch) := target in
  CompleteKernelDirs
    (mgrconfig.mkConfig (targetOS ++ "/" ++ targetVMArch)
       targetOS targetArch targetVMArch (Some st) (mgrconfig.other cfg)).

(** What [usage] writes. *)
Definition usage_text : string :=
  "usage: syz-logparser [flags] kernel_log_file" ++ nl ++ flag_PrintDefaults.

(** [main] in two parts.  The first is [main] up to the point where the
    log is in memory: its lines before the call of [parseReports]. *)
Definition startup (cl : CommandLine) : M (Reporter * bytes) :=
  let fl := flag_Parse cl in
  (if negb (flag_NArg cl =? 1) then usage ;; os_Exit 1 else ret tt) ;;
  loaded <- loadReporterConfig fl ;;
  cfg <- match loaded with
         | Err err => tool_Failf ("failed to load config: " ++ err)
         | Ok cfg => ret cfg
         end ;;
  made <- call_NewReporter cfg ;;
  reporter <- match made with
              | Err err => tool_Failf ("failed to create reporter: " ++ err)
              | Ok reporter => ret reporter
              end ;;
  read <- call_ReadFile (flag_Arg cl 0) ;;
  logData <- match read with
             | Err err => tool_Failf ("failed to read log file: " ++ err)
             | Ok logData => ret logData
             end ;;
  ret (reporter, logData).

(** The second is [main] from the call of [parseReports] on. *)
Definition present (fl : Flags) (reporter : Reporter) (logData : bytes)
  : M unit :=
  reports <- parseReports fl reporter logData ;;
  if len reports =? 0 then
    if flagJSON fl then Println "[]"
    else
      Println "no crash reports found in log" ;;
      suppressed <- call_IsSuppressed reporter logData ;;
      if suppressed
      then Println "note: log matched suppression patterns for this target"
      else ret tt
  else if flagJSON fl then emitJSON reports
  else printHuman reports.

(** *** The JSON output, as described *)

(** The twelve field names of a report object, in order. *)
Definition report_keys : list string :=
  ["title"; "alt_titles"; "type"; "frame"; "start_pos"; "end_pos";
   "skip_pos"; "suppressed"; "corrupted"; "corrupted_reason"; "executor";
   "report"].

(** The fields a report's object leaves out: the alternative titles when
    there are none, the frame and the corruption reason when empty, the
    executor when absent. *)
Definition omitted (rep : report.Report) (key : string) : bool :=
  ((key =? "alt_titles")%string
   && match report.AltTitles rep with [] => true | _ => false end)
  || ((key =? "frame")%string && (report.Frame rep =? "")%string)
  || ((key =? "corrupted_reason")%string
      && (report.CorruptedReason rep =? "")%string)
  || ((key =? "executor")%string
      && match report.Executor rep with None => true | _ => false end).

(** The value under each field name. *)
Definition field_value (rep : report.Report) (key : string) : json :=
  if (key =? "title")%string then JString (report.Title rep)
  else if (key =? "alt_titles")%string
  then JArray (map JString (report.AltTitles rep))
  else if (key =? "type")%string
  then JString (Type_String (report.Type_ rep))
  else if (key =? "frame")%string then JString (report.Frame rep)
  else if (key =? "start_pos")%string then JNum (report.StartPos rep)
  else if (key =? "end_pos")%string then JNum (report.EndPos rep)
  else if (key =? "skip_pos")%string then JNum (report.SkipPos rep)
  else if (key =? "suppressed")%string then JBool (report.Suppressed rep)
  else if (key =? "corrupted")%string then JBool (report.Corrupted rep)
  else if (key =? "corrupted_reason")%string
  then JString (report.CorruptedReason rep)
  else if (key =? "executor")%string
  then match report.Executor rep with
       | Some e => ExecutorInfo_json e
       | None => JNull
       end
  else if (key =? "report")%string
  then JString (string_of_bytes (report.Report_ rep))
  else JNull.

(** One object per report: its fields are the twelve names less the
    omitted ones. *)
Definition report_object (rep : report.Report) : json :=
  JObject
    (map (fun key => (key, field_value rep key))
       (filter (fun key => negb (omitted rep key)) report_keys)).

(** The field names of an object, in order. *)
Definition object_keys (v : json) : list string :=
  match v with
  | JObject fields => map fst fields
  | _ => []
  end.

(** JSON text with two-space indentation: a non-empty array or object has
    each item on a line of its own, two spaces deeper than the line of its
    brackets; an object's field is its quoted name, a colon, a space and
    its value. *)
Definition spaces (n : nat) : string := repeat_string " " n.

Definition line_break (depth : nat) : string := nl ++ spaces (2 * depth).

Definition on_lines (depth : nat) (open close : string)
  (items : list string) : string :=
  match items with
  | [] => open ++ close
  | _ =>
      open ++ line_break (S depth)
      ++ String.concat ("," ++ line_break (S depth)) items
      ++ line_break depth ++ close
  end.

Fixpoint two_space (depth : nat) (v : json) : string :=
  match v with
  | JNull => "null"
  | JBool b => fmt_bool b
  | JNum z => fmt_d z
  | JString s => json_quote s
  | JArray items => on_lines depth "[" "]" (map (two_space (S depth)) items)
  | JObject fields =>
      on_lines depth "{" "}"
        (map (fun f =>
                dquote ++ fst f ++ dquote ++ ": "
                ++ two_space (S depth) (snd f))
           fields)
  end.

(** *** The text output, as described *)

(** The labeled lines of a report's block. *)
Definition labeled_lines (rep : report.Report) : string :=
  "Title: " ++ report.Title rep ++ nl
  ++ "Type: " ++ Type_String (report.Type_ rep) ++ nl
  ++ match report.AltTitles rep with
     | [] => ""
     | alts => "Alt titles: " ++ String.concat ", " alts ++ nl
     end
  ++ (if (report.Frame rep =? "")%string then ""
      else "Frame: " ++ report.Frame rep ++ nl)
  ++ "Range: [" ++ fmt_d (report.StartPos rep) ++ ", "
  ++ fmt_d (report.EndPos rep) ++ "], next "
  ++ fmt_d (report.SkipPos rep) ++ nl
  ++ "Suppressed: " ++ fmt_bool (report.Suppressed rep) ++ nl
  ++ "Corrupted: " ++ fmt_bool (report.Corrupted rep)
  ++ (if (report.CorruptedReason rep =? "")%string then ""
      else " (" ++ report.CorruptedReason rep ++ ")")
  ++ nl.

(** The body as printed: the bytes as they are, with a newline added when
    the last byte is not one; a fixed text for an empty body. *)
Definition body_text (body : bytes) : string :=
  match body with
  | [] => "(empty report body)" ++ nl
  | _ =>
      string_of_bytes body
      ++ (if Ascii.eqb (last body LF) LF then "" else nl)
  end.

(** The block of the report numbered [n]: the heading, the labeled lines,
    an empty line and the body. *)
Definition block (n : Z) (rep : report.Report) : string :=
  "Crash #" ++ fmt_d n ++ nl ++ labeled_lines rep ++ nl
  ++ body_text (report.Report_ rep).

(** The reports with their numbers, counting from [first]. *)
Fixpoint numbered (first : Z) (reports : list report.Report)
  : list (Z * report.Report) :=
  match reports with
  | [] => []
  | rep :: rest => (first, rep) :: numbered (first + 1) rest
  end.

Definition divider : string := nl ++ "---" ++ nl ++ nl.

(** The blocks numbered from 1, with a divider between each two. *)
Definition human_text (reports : list report.Report) : string :=
  String.concat divider
    (map (fun p => block (fst p) (snd p)) (numbered 1 reports)).

End Reading.

(** *** What a piece of the program leaves alone *)

(** A relation between the world before and after that steps compose. *)
Class Lasting (I : World -> World -> Prop) : Prop := {
  lasting_refl : forall w, I w w;
  lasting_trans : forall a b c, I a b -> I b c -> I a c
}.

(** [m] keeps [I] from every world, however it ends. *)
Definition preserves (I : World -> World -> Prop) {A} (m : M A) : Prop :=
  forall w, I w (snd (m w)).

(** Nothing was written to the standard output. *)
Definition same_output (w w' : World) : Prop :=
  stdout w' = stdout w /\ stdout_err w' = stdout_err w.

(** The collaborator [c] was not called. *)
Definition no_new_call (c : Call) (w w' : World) : Prop :=
  In c (calls w') -> In c (calls w).

(** [m] does not panic. *)
Definition safe {A} (m : M A) : Prop :=
  forall w, is_panic (fst (m w)) = false.

(** [m] prints [s] and returns [a] when the standard output works. *)
Definition prints {A} (m : M A) (s : string) (a : A) : Prop :=
  forall w, stdout_err w = None -> m w = (Ret a, printed w s).

(** ** A small instance, for the examples *)

Module Demo.

(** A reporter is the byte that marks a crash; the executor metadata is a
    process id. *)
#[export] Instance types : PkgTypes := {|
  Reporter := ascii;
  ExecutorInfo := Z;
  CrashType := string;
  Target := string;
  Settings := unit
|}.

(** The first marker at or after [pos], scanning [buf] from offset [off]. *)
Fixpoint find_marker (marker : ascii) (buf : bytes) (off pos : Z)
  : option Z :=
  match buf with
  | [] => None
  | c :: rest =>
      if (pos <=? off) && Ascii.eqb c marker then Some off
      else find_marker marker rest (off + 1) pos
  end.

(** A marker is a report of one byte. *)
Definition parseFrom (marker : ascii) (buf : bytes) (pos : Z)
  : option report.Report :=
  match find_marker marker buf 0 pos with
  | None => None
  | Some at_ =>
      Some (report.mkReport "marker" [] "UNKNOWN" "" at_ (at_ + 1) (at_ + 1)
              false false "" None [marker])
  end.

Definition log : bytes := list_ascii_of_string "boot! oops!".

#[export] Instance packages : Packages := {|
  report_NewReporter cfg :=
    if (mgrconfig.TargetArch cfg =? "riscv64")%string
    then Err "no reporter" else Ok "!"%char;
  Reporter_Parse := Parse_spec parseFrom;
  report_ParseAll := ParseAll_spec parseFrom;
  report_IsSuppressed r buf :=
    match buf with c :: _ => Ascii.eqb c "#" | [] => false end;
  Type_String t := t;
  targets_Linux := "linux";
  targets_Get os arch := if (os =? "linux")%string then Some arch else None;
  targets_List := "[linux]";
  runtime_GOARCH := "amd64";
  mgrconfig_DefaultValues := mgrconfig.mkConfig "" "" "" "" None tt;
  config_LoadFile path cfg :=
    if (path =? "mgr.cfg")%string
    then Ok (mgrconfig.mkConfig "linux/arm64/arm" "" "" "" None tt)
    else Err "no such file";
  CompleteKernelDirs cfg := cfg;
  os_ReadFile path :=
    if (path =? "log.txt")%string then Ok log
    else if (path =? "quiet.txt")%string
         then Ok (list_ascii_of_string "# all good")
         else if (path =? "clean.txt")%string
              then Ok (list_ascii_of_string "all good")
              else Err "no such file";
  flag_PrintDefaults := "  -all" ++ nl;
  json_quote s := dquote ++ s ++ dquote;
  ExecutorInfo_json pid := JObject [("pid", JNum pid)];
  tool_report msg := msg ++ nl;
  tool_status := 1%positive
|}.

Definition rep1 : report.Report :=
  report.mkReport "KASAN: use-after-free" ["UAF"; "kasan"] "KASAN" "foo"
    3 9 9 false true "truncated" (Some 42) (list_ascii_of_string "oops").

Definition rep2 : report.Report :=
  report.mkReport "panic" [] "PANIC" "" 10 10 11 true false "" None [].

End Demo.

(** ** Further readings of a run *)

(** How a run ends, without the value it returns. *)
Inductive Ending : Type :=
| Returned
| Exited (code : Z)
| Panicked.

Definition ending {A} (r : Res A) : Ending :=
  match r with
  | Ret _ => Returned
  | Exit c => Exited c
  | Panic => Panicked
  end.

(** A relation between the world before, the ending and the world after
    that holds of nothing done, and of two steps in a row when it holds of
    the first, which returned, and of the second. *)
Class Sequential (Q : World -> Ending -> World -> Prop) : Prop := {
  sequential_ret : forall w, Q w Returned w;
  sequential_seq :
    forall a b c e, Q a Returned b -> Q b e c -> Q a e c
}.

(** [m] ends as [Q] says, from every world. *)
Definition ends (Q : World -> Ending -> World -> Prop) {A} (m : M A) : Prop :=
  forall w, Q w (ending (fst (m w))) (snd (m w)).

(** A piece that returns has written nothing to the standard error. *)
Definition returns_quietly (w : World) (e : Ending) (w' : World) : Prop :=
  e = Returned -> stderr w' = stderr w.

(** A piece that exits does so with one of the statuses [ok]. *)
Definition exits_within (ok : Z -> Prop) (w : World) (e : Ending)
  (w' : World) : Prop :=
  forall c, e = Exited c -> ok c.

(** No collaborator was called. *)
Definition same_calls (w w' : World) : Prop := calls w' = calls w.


(** The place of a collaborator in a run. *)
Definition call_rank (c : Call) : nat :=
  match c with
  | CallLoadFile _ => 0
  | CallTargetsGet _ _ => 1
  | CallNewReporter => 2
  | CallReadFile _ => 3
  | CallParse => 4
  | CallParseAll => 4
  | CallIsSuppressed => 5
  end.

(** The numbers grow from each one to the next. *)
Fixpoint increasing (l : list nat) : bool :=
  match l with
  | [] => true
  | x :: rest =>
      match rest with
      | [] => true
      | y :: _ => (x <? y)%nat && increasing rest
      end
  end.

(** The text ends with a newline. *)
Definition ends_with_newline (s : string) : Prop :=
  exists before, s = before ++ nl.

Section Further_readings.
Context {T : PkgTypes} {P : Packages}.


End Further_readings.

(** The small instance with a settings file whose target has two parts. *)
Module Demo2.

#[export] Instance packages : Packages (T := Demo.types) := {|
  report_NewReporter := report_NewReporter (Packages := Demo.packages);
  Reporter_Parse := Reporter_Parse (Packages := Demo.packages);
  report_ParseAll := report_ParseAll (Packages := Demo.packages);
  report_IsSuppressed := report_IsSuppressed (Packages := Demo.packages);
  Type_String := Type_String (Packages := Demo.packages);
  targets_Linux := "linux";
  targets_Get := targets_Get (Packages := Demo.packages);
  targets_List := "[linux]";
  runtime_GOARCH := "amd64";
  mgrconfig_DefaultValues :=
    mgrconfig.mkConfig (T := Demo.types) "" "" "" "" None tt;
  config_LoadFile path cfg :=
    if (path =? "two.cfg")%string
    then Ok (mgrconfig.mkConfig (T := Demo.types) "linux/arm64" "" "" ""
               None tt)
    else Err "no such file";
  CompleteKernelDirs cfg := cfg;
  os_ReadFile := os_ReadFile (Packages := Demo.packages);
  flag_PrintDefaults := "  -all" ++ nl;
  json_quote := json_quote (Packages := Demo.packages);
  ExecutorInfo_json := ExecutorInfo_json (Packages := Demo.packages);
  tool_report msg := msg ++ nl;
  tool_status := 1%positive
|}.

End Demo2.

(** ** Theorems *)

Section Flags_facts.
Context {T : PkgTypes} {P : Packages}.

Lemma fold_flag_Set_all (opts : list FlagArg) (fl : Flags) :
  forallb (fun a => match a with OptAll _ => false | _ => true end) opts
  = true ->
  flagAll (fold_left flag_Set opts fl) = flagAll fl.
Proof.
  revert fl; induction opts as [|a opts IH]; intros fl H; [reflexivity|].
  simpl in H; apply andb_true_iff in H as [Ha H].
  simpl; rewrite (IH _ H); destruct a; simpl; congruence.
Qed.

Lemma fold_flag_Set_os (opts : list FlagArg) (fl : Flags) :
  forallb (fun a => match a with OptOS _ => false | _ => true end) opts
  = true ->
  flagOS (fold_left flag_Set opts fl) = flagOS fl.
Proof.
  revert fl; induction opts as [|a opts IH]; intros fl H; [reflexivity|].
  simpl in H; apply andb_true_iff in H as [Ha H].
  simpl; rewrite (IH _ H); destruct a; simpl; congruence.
Qed.

Lemma fold_flag_Set_arch (opts : list FlagArg) (fl : Flags) :
  forallb (fun a => match a with OptArch _ => false | _ => true end) opts
  = true ->
  flagArch (fold_left flag_Set opts fl) = flagArch fl.
Proof.
  revert fl; induction opts as [|a opts IH]; intros fl H; [reflexivity|].
  simpl in H; apply andb_true_iff in H as [Ha H].
  simpl; rewrite (IH _ H); destruct a; simpl; congruence.
Qed.

(** C8: the [-os] flag is registered with the default [targets.Linux] and
    the [-arch] flag with [runtime.GOARCH]; a command line that gives
    neither leaves both variables at these values. *)
Theorem flag_os_arch_defaults :
  flagOS flagDefaults = targets_Linux
  /\ flagArch flagDefaults = runtime_GOARCH
  /\ forall cl,
       (os_absent cl = true -> flagOS (flag_Parse cl) = targets_Linux)
       /\ (arch_absent cl = true ->
           flagArch (flag_Parse cl) = runtime_GOARCH).
Proof.
  split; [reflexivity|]. split; [reflexivity|].
  intros cl; split; intros H.
  - unfold flag_Parse. now rewrite fold_flag_Set_os.
  - unfold flag_Parse. now rewrite fold_flag_Set_arch.
Qed.

End Flags_facts.

Section Protocol_facts.
Context {T : PkgTypes}.
Variable parseFrom : Reporter -> bytes -> Z -> option report.Report.

(** The first report of ParseAll is the report of Parse. *)
Lemma ParseAll_from_head (fuel : nat) (r : Reporter) (buf : bytes) :
  firstn 1 (ParseAll_from parseFrom (S fuel) r buf 0)
  = match Parse_spec parseFrom r buf with
    | Some rep => [rep]
    | None => []
    end.
Proof.
  unfold Parse_spec; simpl.
  destruct (parseFrom r buf 0); reflexivity.
Qed.

(** Under the forward-progress guarantee the iterations of ParseAll end by
    themselves: once [fuel] covers the positions left, more fuel finds the
    same reports. *)
Lemma ParseAll_from_stable (r : Reporter) (buf : bytes) :
  forward_progress parseFrom r buf ->
  forall fuel pos,
    len buf + 2 <= Z.of_nat fuel + pos ->
    ParseAll_from parseFrom (S fuel) r buf pos
    = ParseAll_from parseFrom fuel r buf pos.
Proof.
  intros FP fuel; induction fuel as [|fuel IH]; intros pos Hle.
  - simpl. destruct (parseFrom r buf pos) as [rep|] eqn:E; [|reflexivity].
    destruct (FP _ _ E) as [[H1 H2] _]. unfold len in *. lia.
  - change (ParseAll_from parseFrom (S (S fuel)) r buf pos)
      with (match parseFrom r buf pos with
            | None => []
            | Some rep =>
                rep :: ParseAll_from parseFrom (S fuel) r buf
                         (report.SkipPos rep)
            end).
    change (ParseAll_from parseFrom (S fuel) r buf pos)
      with (match parseFrom r buf pos with
            | None => []
            | Some rep =>
                rep :: ParseAll_from parseFrom fuel r buf
                         (report.SkipPos rep)
            end).
    destruct (parseFrom r buf pos) as [rep|] eqn:E; [|reflexivity].
    destruct (FP _ _ E) as [[H1 H2] H3].
    rewrite IH; [reflexivity | lia].
Qed.

(** So ParseAll of the spec does not depend on the bound it is given. *)
Lemma ParseAll_spec_enough (r : Reporter) (buf : bytes) (extra : nat) :
  forward_progress parseFrom r buf ->
  ParseAll_from parseFrom (extra + S (S (List.length buf))) r buf 0
  = ParseAll_spec parseFrom r buf.
Proof.
  intros FP; induction extra as [|extra IH]; [reflexivity|].
  simpl Nat.add; rewrite ParseAll_from_stable; auto.
  unfold len; lia.
Qed.

End Protocol_facts.

Section ParseReports_facts.
Context {T : PkgTypes} {P : Packages}.

Lemma parseReports_run (fl : Flags) (r : Reporter) (d : bytes) (w : World) :
  parseReports fl r d w = (Ret (parsed fl r d), logged w (parse_call fl)).
Proof.
  unfold parseReports, parsed, parse_call, call_ParseAll, call_Parse, bind,
    called.
  destruct (flagAll fl); simpl; [reflexivity|].
  destruct (Reporter_Parse r d); reflexivity.
Qed.

(** C1: without [-all], parseReports calls Parse alone and returns its one
    report, or the empty sequence; with [-all] it returns what ParseAll
    returns; and on every buffer the first is the head of the second, for
    a report package that follows the iteration protocol of section 4.6. *)
Theorem parseReports_first_or_all (cl : CommandLine) (reporter : Reporter)
  (logData : bytes) (w : World) :
  (all_absent cl = true ->
   parseReports (flag_Parse cl) reporter logData w
   = (Ret (single (Reporter_Parse reporter logData)), logged w CallParse))
  /\ (flagAll (flag_Parse cl) = true ->
      parseReports (flag_Parse cl) reporter logData w
      = (Ret (report_ParseAll reporter logData), logged w CallParseAll))
  /\ (forall parseFrom,
        follows_protocol P parseFrom ->
        single (Reporter_Parse reporter logData)
        = firstn 1 (report_ParseAll reporter logData)).
Proof.
  split; [|split].
  - intros H. rewrite parseReports_run. unfold parse_call, parsed.
    unfold flag_Parse, all_absent in *.
    now rewrite fold_flag_Set_all.
  - intros H. rewrite parseReports_run. unfold parse_call, parsed.
    now rewrite H.
  - intros parseFrom [HP HA]. rewrite HP, HA. unfold ParseAll_spec, single.
    now rewrite ParseAll_from_head.
Qed.

End ParseReports_facts.

(** *** Strings and worlds *)

Lemma append_assoc (a b c : string) : ((a ++ b) ++ c = a ++ (b ++ c))%string.
Proof. induction a as [|x a IH]; simpl; [reflexivity|now rewrite IH]. Qed.

Lemma append_nil_r (a : string) : (a ++ "" = a)%string.
Proof. induction a as [|x a IH]; simpl; [reflexivity|now rewrite IH]. Qed.

Lemma printed_printed (w : World) (s t : string) :
  printed (printed w s) t = printed w (s ++ t).
Proof. unfold printed; simpl. now rewrite append_assoc. Qed.

Lemma printed_nil (w : World) : printed w "" = w.
Proof. destruct w; unfold printed; simpl. now rewrite append_nil_r. Qed.

Lemma reported_reported (w : World) (s t : string) :
  reported (reported w s) t = reported w (s ++ t).
Proof. unfold reported; simpl. now rewrite append_assoc. Qed.

(** *** Frames *)

#[export] Instance same_output_Lasting : Lasting same_output.
Proof.
  split; unfold same_output; [now intros|].
  intros a b c [H1 H2] [H3 H4]. split; congruence.
Qed.

#[export] Instance no_new_call_Lasting (c : Call) : Lasting (no_new_call c).
Proof. split; unfold no_new_call; auto. Qed.

Section Preserves.
Variable I : World -> World -> Prop.
Context {L : Lasting I}.

Lemma preserves_ret {A} (a : A) : preserves I (ret a).
Proof. intros w. apply lasting_refl. Qed.

Lemma preserves_os_Exit {A} (c : Z) : preserves I (@os_Exit A c).
Proof. intros w. apply lasting_refl. Qed.

Lemma preserves_panic {A} : preserves I (@panic A).
Proof. intros w. apply lasting_refl. Qed.

Lemma preserves_bind {A B} (m : M A) (k : A -> M B) :
  preserves I m -> (forall a, preserves I (k a)) -> preserves I (bind m k).
Proof.
  intros Hm Hk w. unfold bind. specialize (Hm w).
  destruct (m w) as [[a|c|] w']; simpl in *; auto.
  eapply lasting_trans; [exact Hm|apply Hk].
Qed.

Lemma preserves_at_index {A} (l : list A) (i : Z) :
  preserves I (at_index l i).
Proof.
  unfold at_index. destruct (index l i);
    [apply preserves_ret|apply preserves_panic].
Qed.

End Preserves.

Create HintDb frames.
#[export] Hint Resolve preserves_ret preserves_os_Exit preserves_panic
  preserves_at_index : frames.

(** One step through a program built from [bind], [if] and [match]. *)
Ltac frame_step :=
  match goal with
  | |- preserves _ (bind _ _) =>
      apply preserves_bind; [exact _| |intros ?]
  | |- preserves _ (if ?b then _ else _) => destruct b
  | |- preserves _ (match ?x with _ => _ end) => destruct x
  | |- preserves _ _ => solve [auto with frames typeclass_instances]
  end.
Ltac frames := repeat frame_step.

Lemma same_output_Eprintf (s : string) : preserves same_output (Eprintf s).
Proof. intros w. split; reflexivity. Qed.

Lemma same_output_called (c : Call) : preserves same_output (called c).
Proof. intros w. split; reflexivity. Qed.

Lemma no_new_call_Eprintf (c : Call) (s : string) :
  preserves (no_new_call c) (Eprintf s).
Proof. intros w. unfold no_new_call. auto. Qed.

Lemma no_new_call_Write (c : Call) (s : string) :
  preserves (no_new_call c) (os_Stdout_Write s).
Proof.
  intros w. unfold no_new_call, os_Stdout_Write.
  destruct (stdout_err w); auto.
Qed.

Lemma no_new_call_called (c c' : Call) :
  c <> c' -> preserves (no_new_call c) (called c').
Proof.
  intros N w. unfold no_new_call. simpl. intros H.
  apply in_app_or in H as [H|[H|[]]]; [assumption|congruence].
Qed.

#[export] Hint Resolve same_output_Eprintf same_output_called
  no_new_call_Eprintf no_new_call_Write : frames.
#[export] Hint Extern 1 (preserves (no_new_call _) (called _)) =>
  apply no_new_call_called; discriminate : frames.

(** *** Index reads *)

Lemma index_nth {A} (l : list A) (i : nat) (d : A) :
  (i < List.length l)%nat -> index l (Z.of_nat i) = Some (nth i l d).
Proof.
  intros H. unfold index, len.
  destruct (Z.ltb_spec (Z.of_nat i) 0) as [?|_]; [lia|].
  destruct (Z.leb_spec (Z.of_nat (List.length l)) (Z.of_nat i)) as [?|_];
    [lia|].
  simpl. rewrite Nat2Z.id. now apply nth_error_nth'.
Qed.

Lemma index_last {A} (l : list A) (d : A) :
  l <> [] -> index l (len l - 1) = Some (last l d).
Proof.
  intros H. destruct (exists_last H) as [l' [a ->]].
  rewrite last_last. unfold len.
  replace (Z.of_nat (List.length (l' ++ [a])) - 1)
    with (Z.of_nat (List.length l'))
    by (rewrite length_app; simpl; lia).
  rewrite (index_nth _ _ d) by (rewrite length_app; simpl; lia).
  now rewrite nth_middle.
Qed.

(** *** Printing *)

Lemma prints_ret {A} (a : A) : prints (ret a) "" a.
Proof. intros w _. unfold ret. now rewrite printed_nil. Qed.

Lemma prints_bind {A B} (m : M A) (k : A -> M B) (s t : string) a b :
  prints m s a -> prints (k a) t b -> prints (bind m k) (s ++ t) b.
Proof.
  intros Hm Hk w Hw. unfold bind. rewrite (Hm w Hw).
  rewrite (Hk (printed w s)) by exact Hw.
  now rewrite printed_printed.
Qed.

Lemma prints_Write (s : string) : prints (os_Stdout_Write s) s None.
Proof.
  intros w Hw. unfold os_Stdout_Write, printed. now rewrite Hw.
Qed.

Lemma prints_Printf (s : string) : prints (Printf s) s tt.
Proof.
  unfold Printf. rewrite <- (append_nil_r s) at 2.
  eapply prints_bind; [apply prints_Write|apply prints_ret].
Qed.

Lemma prints_when (b : bool) (s : string) :
  prints (if b then Printf s else ret tt) (if b then s else "") tt.
Proof. destruct b; [apply prints_Printf|apply prints_ret]. Qed.

Lemma prints_at_index {A} (l : list A) (i : Z) (x : A) :
  index l i = Some x -> prints (at_index l i) "" x.
Proof. intros H. unfold at_index. rewrite H. apply prints_ret. Qed.

Lemma prints_text {A} (m : M A) (s t : string) (a : A) :
  prints m s a -> s = t -> prints m t a.
Proof. now intros H <-. Qed.

(** *** Not panicking *)

Lemma safe_ret {A} (a : A) : safe (ret a).
Proof. now intros w. Qed.

Lemma safe_os_Exit {A} (c : Z) : safe (@os_Exit A c).
Proof. now intros w. Qed.

Lemma safe_bind {A B} (m : M A) (k : A -> M B) :
  safe m -> (forall a, safe (k a)) -> safe (bind m k).
Proof.
  intros Hm Hk w. unfold bind. specialize (Hm w).
  destruct (m w) as [[a|c|] w']; simpl in *; auto. apply Hk.
Qed.

Lemma safe_Write (s : string) : safe (os_Stdout_Write s).
Proof. intros w. unfold os_Stdout_Write. now destruct (stdout_err w). Qed.

Lemma safe_Printf (s : string) : safe (Printf s).
Proof.
  unfold Printf. apply safe_bind; [apply safe_Write|intros; apply safe_ret].
Qed.

Lemma safe_Eprintf (s : string) : safe (Eprintf s).
Proof. now intros w. Qed.

Lemma safe_at_index {A} (l : list A) (i : Z) :
  0 <= i < len l -> safe (at_index l i).
Proof.
  intros H. unfold at_index.
  rewrite <- (Z2Nat.id i) by lia.
  destruct l as [|d l]; [unfold len in H; simpl in H; lia|].
  rewrite (index_nth _ _ d) by (unfold len in H; lia).
  apply safe_ret.
Qed.

Create HintDb safety.
#[export] Hint Resolve safe_ret safe_os_Exit safe_Write safe_Printf
  safe_Eprintf : safety.

Section Run_facts.
Context {T : PkgTypes} {P : Packages}.

Lemma bind_assoc {A B C} (m : M A) (f : A -> M B) (g : B -> M C) w :
  bind (bind m f) g w = bind m (fun a => bind (f a) g) w.
Proof. unfold bind. destruct (m w) as [[a|c|] w']; reflexivity. Qed.

Lemma bind_ext {A B} (m : M A) (f g : A -> M B) w :
  (forall a w', f a w' = g a w') -> bind m f w = bind m g w.
Proof. intros H. unfold bind. destruct (m w) as [[a|c|] w']; auto. Qed.

(** [main] is [startup] followed by [present]. *)
Lemma main_startup (cl : CommandLine) (w : World) :
  main cl w
  = bind (startup cl)
      (fun p => present (flag_Parse cl) (fst p) (snd p)) w.
Proof.
  unfold main, startup.
  repeat (rewrite bind_assoc; apply bind_ext; intros ? ?).
  reflexivity.
Qed.

Lemma main_after_startup (cl : CommandLine) (w w' : World) reporter logData :
  startup cl w = (Ret (reporter, logData), w') ->
  main cl w = present (flag_Parse cl) reporter logData w'.
Proof. intros H. rewrite main_startup. unfold bind. now rewrite H. Qed.

Lemma main_exit_in_startup (cl : CommandLine) (w w' : World) (c : Z) :
  startup cl w = (Exit c, w') -> main cl w = (Exit c, w').
Proof. intros H. rewrite main_startup. unfold bind. now rewrite H. Qed.

Lemma same_output_tool_Failf {A} (msg : string) :
  preserves same_output (@tool_Failf _ _ A msg).
Proof. unfold tool_Failf. frames. Qed.

Lemma no_new_call_tool_Failf {A} (c : Call) (msg : string) :
  preserves (no_new_call c) (@tool_Failf _ _ A msg).
Proof. unfold tool_Failf. frames. Qed.

Lemma no_new_call_Printf (c : Call) (s : string) :
  preserves (no_new_call c) (Printf s).
Proof. unfold Printf. frames. Qed.

#[local] Hint Resolve same_output_tool_Failf no_new_call_tool_Failf
  no_new_call_Printf : frames.

Lemma same_output_loadReporterConfig (fl : Flags) :
  preserves same_output (loadReporterConfig fl).
Proof. unfold loadReporterConfig, call_LoadFile, call_targets_Get. frames. Qed.

Lemma same_output_startup (cl : CommandLine) :
  preserves same_output (startup cl).
Proof.
  unfold startup, usage, call_NewReporter, call_ReadFile.
  pose proof (same_output_loadReporterConfig (flag_Parse cl)).
  frames.
Qed.

Lemma no_suppression_check_in_startup (cl : CommandLine) :
  preserves (no_new_call CallIsSuppressed) (startup cl).
Proof.
  unfold startup, usage, call_NewReporter, call_ReadFile,
    loadReporterConfig, call_LoadFile, call_targets_Get.
  frames.
Qed.

(** *** loadReporterConfig *)

Lemma loadReporterConfig_load_error (fl : Flags) (w : World) (e : string) :
  flagConfig fl <> "" ->
  config_LoadFile (flagConfig fl) mgrconfig_DefaultValues = Err e ->
  loadReporterConfig fl w
  = (Ret (Err e), logged w (CallLoadFile (flagConfig fl))).
Proof.
  intros Hc He. unfold loadReporterConfig, bind, call_LoadFile, called.
  destruct (String.eqb_spec (flagConfig fl) "") as [E|_]; [contradiction|].
  simpl. unfold bind, ret. now rewrite He.
Qed.

(** The three index reads of [loadReporterConfig] are in range. *)
Lemma chosen_from_parts (parts : list string) (w : World) :
  (2 <= List.length parts)%nat ->
  (p0 <- at_index parts 0 ;;
   p1 <- at_index parts 1 ;;
   pn <- at_index parts (len parts - 1) ;;
   ret (p0, p1, pn)) w
  = (Ret (hd "" parts, nth 1 parts "", last parts ""), w).
Proof.
  intros H. unfold bind, at_index.
  change 0 with (Z.of_nat 0). rewrite (index_nth _ _ "") by lia.
  change 1 with (Z.of_nat 1) at 1. rewrite (index_nth _ _ "") by lia.
  rewrite (index_last _ "") by (destruct parts; [simpl in H; lia|discriminate]).
  unfold ret. destruct parts; [simpl in H; lia|reflexivity].
Qed.

Lemma loadReporterConfig_resolve (fl : Flags) (w w' : World)
  (cfg : mgrconfig.Config) (targetOS targetVMArch targetArch : string) :
  settings_in_effect fl w cfg w' ->
  chosen_target fl cfg = (targetOS, targetVMArch, targetArch) ->
  loadReporterConfig fl w
  = (Ret match targets_Get targetOS targetVMArch with
         | None => Err (unknown_target targetOS targetVMArch)
         | Some st =>
             Ok (resolved_config cfg (targetOS, targetVMArch, targetArch) st)
         end,
     logged w' (CallTargetsGet targetOS targetVMArch)).
Proof.
  intros Hs Hc.
  assert (Hload :
    (if negb (flagConfig fl =? "")%string
     then call_LoadFile (flagConfig fl) mgrconfig_DefaultValues
     else ret (Ok mgrconfig_DefaultValues)) w = (Ret (Ok cfg), w')).
  { destruct Hs as [(E & -> & ->)|(N & E & ->)].
    - rewrite E. reflexivity.
    - destruct (String.eqb_spec (flagConfig fl) "") as [E'|_];
        [contradiction|].
      simpl. unfold call_LoadFile, bind, called, ret. now rewrite E. }
  unfold loadReporterConfig, bind at 1. rewrite Hload.
  set (parts := strings_Split (mgrconfig.RawTarget cfg) "/"%char).
  assert (Hch :
    (if negb (mgrconfig.RawTarget cfg =? "")%string
     then
       if len parts >=? 2
       then p0 <- at_index parts 0 ;;
            p1 <- at_index parts 1 ;;
            pn <- at_index parts (len parts - 1) ;;
            ret (p0, p1, pn)
       else ret (flagOS fl, flagArch fl, flagArch fl)
     else ret (flagOS fl, flagArch fl, flagArch fl)) w'
    = (Ret (targetOS, targetVMArch, targetArch), w')).
  { unfold chosen_target in Hc. cbv zeta in Hc. fold parts in Hc.
    destruct (negb (mgrconfig.RawTarget cfg =? "")%string);
      cbn [andb] in Hc; [|now rewrite <- Hc].
    destruct (Nat.leb_spec 2 (List.length parts)) as [L|L].
    - replace (len parts >=? 2)
        with true by (symmetry; unfold len; apply Z.geb_le; lia).
      rewrite chosen_from_parts by assumption. now rewrite Hc.
    - replace (len parts >=? 2) with false.
      + now rewrite <- Hc.
      + symmetry. unfold len. rewrite Z.geb_leb. apply Z.leb_gt. lia. }
  unfold bind at 1. rewrite Hch.
  unfold bind, call_targets_Get, called, ret, resolved_config.
  destruct (targets_Get targetOS targetVMArch); reflexivity.
Qed.

(** *** startup *)

Lemma startup_wrong_arity (cl : CommandLine) (w : World) :
  flag_NArg cl <> 1 ->
  startup cl w = (Exit 1, reported w usage_text).
Proof.
  intros H. unfold startup, bind at 1.
  destruct (Z.eqb_spec (flag_NArg cl) 1) as [E|_]; [contradiction|].
  unfold negb, usage, bind, Eprintf, os_Exit, reported, usage_text.
  cbn [stdout stderr calls stdout_err].
  now rewrite !append_assoc.
Qed.

(** What [startup] does once the argument count is right, by the outcome
    of its three fallible steps. *)
Lemma startup_steps (cl : CommandLine) (w w1 : World)
  (loaded : result mgrconfig.Config) :
  flag_NArg cl = 1 ->
  loadReporterConfig (flag_Parse cl) w = (Ret loaded, w1) ->
  startup cl w
  = match loaded with
    | Err e =>
        (Exit (Z.pos tool_status),
         reported w1 (tool_report ("failed to load config: " ++ e)))
    | Ok cfg =>
        let w2 := logged w1 CallNewReporter in
        match report_NewReporter cfg with
        | Err e =>
            (Exit (Z.pos tool_status),
             reported w2 (tool_report ("failed to create reporter: " ++ e)))
        | Ok reporter =>
            let w3 := logged w2 (CallReadFile (flag_Arg cl 0)) in
            match os_ReadFile (flag_Arg cl 0) with
            | Err e =>
                (Exit (Z.pos tool_status),
                 reported w3
                   (tool_report ("failed to read log file: " ++ e)))
            | Ok logData => (Ret (reporter, logData), w3)
            end
        end
    end.
Proof.
  intros HN HL. unfold startup, bind at 1. rewrite HN. simpl.
  unfold bind at 1. rewrite HL.
  destruct loaded as [cfg|e]; [|reflexivity].
  unfold bind at 1. simpl.
  unfold bind at 1. simpl.
  destruct (report_NewReporter cfg) as [reporter|e]; [|reflexivity].
  unfold bind at 1. simpl.
  unfold bind at 1. simpl.
  destruct (os_ReadFile (flag_Arg cl 0)) as [logData|e]; reflexivity.
Qed.

(** [loadReporterConfig] returns: it neither exits nor panics. *)
Lemma loadReporterConfig_returns (fl : Flags) (w : World) :
  exists loaded w1, loadReporterConfig fl w = (Ret loaded, w1).
Proof.
  destruct (String.eqb_spec (flagConfig fl) "") as [E|N].
  - destruct (chosen_target fl mgrconfig_DefaultValues) as [[o v] a] eqn:C.
    rewrite (loadReporterConfig_resolve fl w w mgrconfig_DefaultValues o v a
               (or_introl (conj E (conj eq_refl eq_refl))) C); eauto.
  - destruct (config_LoadFile (flagConfig fl) mgrconfig_DefaultValues)
      as [cfg|e] eqn:L.
    + destruct (chosen_target fl cfg) as [[o v] a] eqn:C.
      rewrite (loadReporterConfig_resolve fl w _ cfg o v a
                 (or_intror (conj N (conj L eq_refl))) C); eauto.
    + rewrite (loadReporterConfig_load_error fl w e N L); eauto.
Qed.

(** *** What the printing functions call *)

Lemma no_new_call_emitJSON_loop (c : Call) (reports : list report.Report) :
  forall i out, preserves (no_new_call c) (emitJSON_loop i reports out).
Proof.
  induction reports as [|rep rest IH]; intros i out; cbn [emitJSON_loop].
  - frames.
  - unfold assign_index. frames.
Qed.

Lemma no_new_call_emitJSON (c : Call) (reports : list report.Report) :
  preserves (no_new_call c) (emitJSON reports).
Proof.
  unfold emitJSON, Encode, tool_Fail.
  pose proof (no_new_call_emitJSON_loop c reports).
  frames.
Qed.

Lemma no_new_call_printHuman_loop (c : Call) (reports : list report.Report) :
  forall idx n, preserves (no_new_call c) (printHuman_loop idx n reports).
Proof.
  induction reports as [|rep rest IH]; intros idx n; cbn [printHuman_loop].
  - frames.
  - unfold tool_Fail. frames.
Qed.

Lemma no_new_call_printHuman (c : Call) (reports : list report.Report) :
  preserves (no_new_call c) (printHuman reports).
Proof. apply no_new_call_printHuman_loop. Qed.

(** *** present *)

Lemma Printf_run (s : string) (w : World) :
  stdout_err w = None -> Printf s w = (Ret tt, printed w s).
Proof.
  intros H. unfold Printf, bind, os_Stdout_Write, printed. now rewrite H.
Qed.

Lemma len_zero {A} (l : list A) : (len l =? 0) = true <-> l = [].
Proof.
  unfold len. destruct l; simpl; split; intros H;
    try reflexivity; try discriminate.
Qed.

Lemma present_no_reports_text (fl : Flags) (r : Reporter) (d : bytes)
  (w : World) :
  parsed fl r d = [] -> flagJSON fl = false -> stdout_err w = None ->
  present fl r d w
  = (Ret tt,
     mkWorld
       (stdout w ++ no_reports_line
        ++ (if report_IsSuppressed r d then suppressed_note else ""))
       (stderr w) (calls w ++ [parse_call fl; CallIsSuppressed]) None).
Proof.
  intros Hp Hj Hw. unfold present, bind at 1.
  rewrite parseReports_run, Hp, Hj. cbn [len List.length Z.of_nat Z.eqb].
  unfold bind at 1, Println. rewrite Printf_run by exact Hw.
  unfold bind at 1, call_IsSuppressed, bind, called, ret.
  unfold no_reports_line, suppressed_note.
  destruct (report_IsSuppressed r d).
  - rewrite Printf_run by exact Hw. unfold printed, logged.
    cbn [stdout stderr calls stdout_err].
    now rewrite Hw, !append_assoc, <- app_assoc.
  - unfold printed, logged. cbn [stdout stderr calls stdout_err].
    now rewrite Hw, !append_assoc, append_nil_r, <- app_assoc.
Qed.

Lemma present_no_reports_json (fl : Flags) (r : Reporter) (d : bytes)
  (w : World) :
  parsed fl r d = [] -> flagJSON fl = true -> stdout_err w = None ->
  present fl r d w
  = (Ret tt, printed (logged w (parse_call fl)) ("[]" ++ nl)).
Proof.
  intros Hp Hj Hw. unfold present, bind at 1.
  rewrite parseReports_run, Hp, Hj. cbn [len List.length Z.of_nat Z.eqb].
  unfold Println. now rewrite Printf_run.
Qed.

Lemma present_reports (fl : Flags) (r : Reporter) (d : bytes) (w : World) :
  parsed fl r d <> [] ->
  present fl r d w
  = (if flagJSON fl then emitJSON (parsed fl r d)
     else printHuman (parsed fl r d)) (logged w (parse_call fl)).
Proof.
  intros Hp. unfold present, bind at 1. rewrite parseReports_run.
  destruct (len (parsed fl r d) =? 0) eqn:E; [|reflexivity].
  apply len_zero in E. contradiction.
Qed.

(** Only the run that finds no report and prints text asks whether the
    log is suppressed. *)
Lemma present_suppression_check (fl : Flags) (r : Reporter) (d : bytes)
  (w : World) :
  In CallIsSuppressed (calls (snd (present fl r d w))) ->
  ~ In CallIsSuppressed (calls w) ->
  parsed fl r d = [] /\ flagJSON fl = false.
Proof.
  intros Hin Hw.
  destruct (parsed fl r d) as [|rep reps] eqn:Hp.
  - destruct (flagJSON fl) eqn:Hj; [|auto].
    exfalso. apply Hw. revert Hin.
    unfold present, bind at 1. rewrite parseReports_run, Hp, Hj.
    cbn [len List.length Z.of_nat Z.eqb].
    intros Hin. apply (no_new_call_Printf CallIsSuppressed) in Hin.
    unfold logged in Hin; cbn [calls] in Hin.
    apply in_app_or in Hin as [H|[H|[]]]; [assumption|].
    unfold parse_call in H. destruct (flagAll fl); discriminate.
  - exfalso. apply Hw. revert Hin.
    rewrite present_reports by (rewrite Hp; discriminate).
    rewrite Hp. intros Hin.
    assert (H : In CallIsSuppressed (calls (logged w (parse_call fl)))).
    { destruct (flagJSON fl).
      - now apply (no_new_call_emitJSON CallIsSuppressed) in Hin.
      - now apply (no_new_call_printHuman CallIsSuppressed) in Hin. }
    unfold logged in H; cbn [calls] in H.
    apply in_app_or in H as [H|[H|[]]]; [assumption|].
    unfold parse_call in H. destruct (flagAll fl); discriminate.
Qed.

(** *** emitJSON *)

Lemma set_nth_middle {A} (done : list A) (t : A) (todo : list A) (x : A) :
  (set_nth (done ++ t :: todo) (List.length done) x
   = Some (done ++ x :: todo))%list.
Proof.
  induction done as [|y done IH]; simpl; [reflexivity|now rewrite IH].
Qed.

(** The loop of [emitJSON] fills the slots left of [out] in order and
    stays in range. *)
Lemma emitJSON_loop_run (reports : list report.Report) :
  forall (done todo : list serializedReport) (w : World),
    List.length todo = List.length reports ->
    emitJSON_loop (len done) reports (done ++ todo)%list w
    = (Ret (done ++ map serialize reports)%list, w).
Proof.
  induction reports as [|rep rest IH]; intros done todo w H.
  - destruct todo; [|discriminate]. reflexivity.
  - destruct todo as [|t todo]; [discriminate|].
    cbn [emitJSON_loop map]. unfold bind, assign_index.
    destruct (Z.ltb_spec (len done) 0) as [L|_]; [unfold len in L; lia|].
    unfold len at 1. rewrite Nat2Z.id, set_nth_middle. unfold ret.
    replace (len done + 1) with (len (done ++ [serialize rep])%list)
      by (unfold len; rewrite length_app; simpl; lia).
    replace (done ++ serialize rep :: todo)%list
      with ((done ++ [serialize rep]) ++ todo)%list
      by (now rewrite <- app_assoc).
    rewrite IH by (simpl in H; lia).
    now rewrite <- app_assoc.
Qed.

Lemma emitJSON_out (reports : list report.Report) (w : World) :
  emitJSON_loop 0 reports (make zero_serializedReport (len reports)) w
  = (Ret (map serialize reports), w).
Proof.
  apply (emitJSON_loop_run reports [] _ w).
  unfold make, len. now rewrite Nat2Z.id, repeat_length.
Qed.

(** X3: the loop of [emitJSON] leaves in [out] the serialized form of
    every report, in order, one per report; none of its slot writes is out
    of range, and the world is as before. *)
Lemma emitJSON_fills_out (reports : list report.Report) (w : World) :
  exists out,
    emitJSON_loop 0 reports (make zero_serializedReport (len reports)) w
    = (Ret out, w)
    /\ len out = len reports
    /\ forall i rep,
         nth_error reports i = Some rep ->
         nth_error out i = Some (serialize rep).
Proof.
  exists (map serialize reports). split; [apply emitJSON_out|]. split.
  - unfold len. now rewrite length_map.
  - intros i rep H. now apply map_nth_error.
Qed.

Lemma emitJSON_run (reports : list report.Report) (w : World) :
  stdout_err w = None ->
  emitJSON reports w
  = (Ret tt,
     printed w
       (encode (SetIndent json_NewEncoder "" "  ") 0
          (marshal_out (map serialize reports)) ++ nl)).
Proof.
  intros H. unfold emitJSON, bind at 1. rewrite emitJSON_out.
  unfold bind, Encode, os_Stdout_Write, printed. now rewrite H.
Qed.


(** The object built from the struct tags is the object described. *)
Lemma marshal_report_object (rep : report.Report) :
  marshal_serializedReport (serialize rep) = report_object rep.
Proof.
  destruct rep as [title alts ty frame sp ep kp su co reason ex body].
  unfold marshal_serializedReport, serialize, report_object, omitted,
    field_value, omitempty.
  cbn [Title AltTitles Type_ Frame StartPos EndPos SkipPos Suppressed
       Corrupted CorruptedReason Executor Report
       report.Title report.AltTitles report.Type_ report.Frame
       report.StartPos report.EndPos report.SkipPos report.Suppressed
       report.Corrupted report.CorruptedReason report.Executor
       report.Report_].
  destruct alts as [|alt alts], frame as [|c1 frame],
    reason as [|c2 reason], ex as [e|]; reflexivity.
Qed.

Lemma marshal_out_objects (reports : list report.Report) :
  marshal_out (map serialize reports) = JArray (map report_object reports).
Proof.
  unfold marshal_out. rewrite map_map. f_equal.
  apply map_ext, marshal_report_object.
Qed.

(** *** The encoder set to two spaces *)

(** Induction on a JSON value through its items and fields. *)
Fixpoint json_nested_ind (Q : json -> Prop)
  (Hnull : Q JNull) (Hbool : forall b, Q (JBool b))
  (Hnum : forall z, Q (JNum z)) (Hstring : forall s, Q (JString s))
  (Harray : forall items, Forall Q items -> Q (JArray items))
  (Hobject : forall fields,
      Forall (fun f => Q (snd f)) fields -> Q (JObject fields))
  (v : json) {struct v} : Q v :=
  match v with
  | JNull => Hnull
  | JBool b => Hbool b
  | JNum z => Hnum z
  | JString s => Hstring s
  | JArray items =>
      Harray items
        ((fix all (l : list json) : Forall Q l :=
            match l with
            | [] => Forall_nil Q
            | x :: l' =>
                Forall_cons x
                  (json_nested_ind Q Hnull Hbool Hnum Hstring Harray
                     Hobject x)
                  (all l')
            end) items)
  | JObject fields =>
      Hobject fields
        ((fix all (l : list (string * json))
            : Forall (fun f => Q (snd f)) l :=
            match l with
            | [] => Forall_nil _
            | f :: l' =>
                Forall_cons f
                  (json_nested_ind Q Hnull Hbool Hnum Hstring Harray
                     Hobject (snd f))
                  (all l')
            end) fields)
  end.

Lemma repeat_two_spaces (depth : nat) :
  repeat_string "  " depth = spaces (2 * depth).
Proof.
  unfold spaces. induction depth as [|d IH]; [reflexivity|].
  replace (2 * S d)%nat with (S (S (2 * d))) by lia.
  cbn [repeat_string]. now rewrite IH.
Qed.

Lemma newline_two_spaces (depth : nat) :
  newline (SetIndent json_NewEncoder "" "  ") depth = line_break depth.
Proof.
  unfold newline, line_break, SetIndent, indenting.
  cbn [indentPrefix indentValue String.eqb negb orb].
  now rewrite repeat_two_spaces.
Qed.

Lemma bracketed_two_spaces (depth : nat) (open close : string)
  (items : list string) :
  bracketed (SetIndent json_NewEncoder "" "  ") depth open close items
  = on_lines depth open close items.
Proof.
  unfold bracketed, on_lines. now rewrite !newline_two_spaces.
Qed.

(** The encoder as [emitJSON] sets it writes JSON text with two-space
    indentation. *)
Lemma encode_two_space (v : json) :
  forall depth,
    encode (SetIndent json_NewEncoder "" "  ") depth v = two_space depth v.
Proof.
  induction v using json_nested_ind; intros depth; try reflexivity.
  - cbn [encode two_space]. rewrite bracketed_two_spaces. f_equal.
    apply map_ext_in. intros x Hx.
    rewrite Forall_forall in H. now apply H.
  - cbn [encode two_space]. rewrite bracketed_two_spaces. f_equal.
    apply map_ext_in. intros f Hf.
    rewrite Forall_forall in H. unfold field_text.
    now rewrite (H f Hf).
Qed.

(** The standard output after [startup] is the one before. *)
Lemma startup_output (cl : CommandLine) (w w1 : World) p :
  startup cl w = (Ret p, w1) ->
  stdout w1 = stdout w /\ stdout_err w1 = stdout_err w.
Proof.
  intros H. pose proof (same_output_startup cl w) as S.
  now rewrite H in S.
Qed.

Lemma parseReports_parsed (fl : Flags) (r : Reporter) (d : bytes)
  (w : World) (reports : list report.Report) :
  fst (parseReports fl r d w) = Ret reports -> parsed fl r d = reports.
Proof. rewrite parseReports_run. simpl. congruence. Qed.

(** Which of the twelve names a report's object holds. *)
Lemma report_object_has_key (rep : report.Report) (key : string) :
  In key (object_keys (report_object rep))
  <-> In key report_keys
      /\ (key = "alt_titles" -> report.AltTitles rep <> [])
      /\ (key = "frame" -> report.Frame rep <> "")
      /\ (key = "corrupted_reason" -> report.CorruptedReason rep <> "")
      /\ (key = "executor" -> report.Executor rep <> None).
Proof.
  unfold report_object, object_keys. rewrite map_map. cbn [fst].
  rewrite map_id, filter_In.
  destruct rep as [title alts ty frame sp ep kp su co reason ex body].
  unfold omitted.
  cbn [report.AltTitles report.Frame report.CorruptedReason report.Executor].
  split.
  - intros [Hin Hom]. split; [exact Hin|].
    repeat split; intros -> E; subst; cbn in Hom; discriminate.
  - intros (Hin & Ha & Hf & Hr & He). split; [exact Hin|].
    cbn in Hin.
    repeat (destruct Hin as [<-|Hin]; [|]); try contradiction;
      try reflexivity.
    + destruct alts; [now exfalso; apply Ha|reflexivity].
    + destruct frame; [now exfalso; apply Hf|reflexivity].
    + destruct reason; [now exfalso; apply Hr|reflexivity].
    + destruct ex; [reflexivity|now exfalso; apply He].
Qed.

(** C2: [emitJSON] writes one JSON array with one object per report, in
    order; an object's fields are title, alt_titles, type, frame,
    start_pos, end_pos, skip_pos, suppressed, corrupted, corrupted_reason,
    executor and report (the body as a string), in this order, less
    alt_titles when there are none, frame and corrupted_reason when empty
    and executor when absent. *)
Theorem emitJSON_objects (reports : list report.Report) (w : World) :
  stdout_err w = None ->
  emitJSON reports w
  = (Ret tt,
     printed w
       (encode (SetIndent json_NewEncoder "" "  ") 0
          (JArray (map report_object reports)) ++ nl))
  /\ List.length (map report_object reports) = List.length reports
  /\ forall rep,
       object_keys (report_object rep)
       = filter (fun key => negb (omitted rep key)) report_keys
       /\ (forall key,
             In key (object_keys (report_object rep))
             <-> In key report_keys
                 /\ (key = "alt_titles" -> report.AltTitles rep <> [])
                 /\ (key = "frame" -> report.Frame rep <> "")
                 /\ (key = "corrupted_reason" ->
                     report.CorruptedReason rep <> "")
                 /\ (key = "executor" -> report.Executor rep <> None))
       /\ (forall key,
             In key (object_keys (report_object rep)) ->
             exists fields,
               report_object rep = JObject fields
               /\ In (key, field_value rep key) fields)
       /\ field_value rep "report"
          = JString (string_of_bytes (report.Report_ rep)).
Proof.
  intros H. split; [|split].
  - rewrite emitJSON_run by exact H. now rewrite marshal_out_objects.
  - apply length_map.
  - intros rep. split; [|split; [|split]].
    + unfold report_object, object_keys. rewrite map_map.
      cbn [fst]. now rewrite map_id.
    + apply report_object_has_key.
    + intros key Hk. eexists; split; [reflexivity|].
      unfold report_object, object_keys in *. rewrite map_map in Hk.
      cbn [fst] in Hk. rewrite map_id in Hk.
      apply in_map_iff. now exists key.
    + reflexivity.
Qed.

(** C3: when no report is parsed and JSON is off, [main] prints the line
    "no crash reports found in log", and after it the note line exactly
    when [report.IsSuppressed] holds of the reporter and the log; and a
    run in which [report.IsSuppressed] is called is such a run. *)
Theorem no_reports_message (cl : CommandLine) (w : World) :
  let fl := flag_Parse cl in
  (forall reporter logData w1,
      startup cl w = (Ret (reporter, logData), w1) ->
      fst (parseReports fl reporter logData w1) = Ret [] ->
      flagJSON fl = false ->
      stdout_err w = None ->
      main cl w
      = (Ret tt,
         mkWorld
           (stdout w ++ "no crash reports found in log" ++ nl
            ++ (if report_IsSuppressed reporter logData
                then "note: log matched suppression patterns for this target"
                     ++ nl
                else ""))
           (stderr w1)
           (calls w1 ++ [parse_call fl; CallIsSuppressed]) None))
  /\ (In CallIsSuppressed (calls (snd (main cl w))) ->
      ~ In CallIsSuppressed (calls w) ->
      exists reporter logData w1,
        startup cl w = (Ret (reporter, logData), w1)
        /\ fst (parseReports fl reporter logData w1) = Ret []
        /\ flagJSON fl = false).
Proof.
  intros fl. split.
  - intros reporter logData w1 Hs Hp Hj Hw.
    destruct (startup_output cl w w1 _ Hs) as [So Se].
    rewrite (main_after_startup cl w w1 _ _ Hs).
    rewrite present_no_reports_text;
      [|now apply parseReports_parsed in Hp|exact Hj|congruence].
    rewrite So. unfold no_reports_line, suppressed_note.
    now rewrite !append_assoc.
  - intros Hin Hw. rewrite main_startup in Hin. unfold bind in Hin.
    pose proof (no_suppression_check_in_startup cl w) as Hq.
    destruct (startup cl w) as [[[reporter logData]|c|] w1] eqn:Hs;
      cbn [snd fst] in *.
    + destruct (present_suppression_check fl reporter logData w1 Hin)
        as [Hp Hj]; [intros H; apply Hw, Hq, H|].
      exists reporter, logData, w1. repeat split; [|exact Hj].
      rewrite parseReports_run. cbn [fst]. now rewrite Hp.
    + exfalso. apply Hw, Hq, Hin.
    + exfalso. apply Hw, Hq, Hin.
Qed.

(** C4: in JSON mode, a run that parses no report prints [[]] and a
    newline; a run that parses reports prints their array as JSON text
    with two-space indentation, and a newline. *)
Theorem json_mode_output (cl : CommandLine) (w w1 : World)
  (reporter : Reporter) (logData : bytes) (reports : list report.Report) :
  startup cl w = (Ret (reporter, logData), w1) ->
  fst (parseReports (flag_Parse cl) reporter logData w1) = Ret reports ->
  flagJSON (flag_Parse cl) = true ->
  stdout_err w = None ->
  fst (main cl w) = Ret tt
  /\ stdout (snd (main cl w))
     = stdout w
       ++ match reports with
          | [] => "[]" ++ nl
          | _ => two_space 0 (JArray (map report_object reports)) ++ nl
          end.
Proof.
  intros Hs Hp Hj Hw.
  destruct (startup_output cl w w1 _ Hs) as [So Se].
  apply parseReports_parsed in Hp.
  rewrite (main_after_startup cl w w1 _ _ Hs).
  destruct reports as [|rep reps].
  - rewrite present_no_reports_json by (auto; congruence).
    cbn [fst snd printed logged stdout]. now rewrite So.
  - rewrite present_reports by (rewrite Hp; discriminate).
    rewrite Hj, Hp, emitJSON_run
      by (unfold logged; cbn [stdout_err]; congruence).
    rewrite marshal_out_objects, encode_two_space.
    cbn [fst snd printed logged stdout]. now rewrite So.
Qed.

(** *** printHuman *)

(** The body part of a block. *)
Lemma body_prints (body : bytes) :
  prints
    (if len body =? 0 then Printf ("(empty report body)" ++ nl)
     else
       err <- os_Stdout_Write (string_of_bytes body) ;;
       match err with
       | Some err => tool_Fail err
       | None => ret tt
       end ;;
       last <- at_index body (len body - 1) ;;
       if negb (Ascii.eqb last LF) then Printf nl else ret tt)
    (body_text body) tt.
Proof.
  destruct body as [|c body].
  - apply prints_Printf.
  - replace (len (c :: body) =? 0) with false by reflexivity.
    eapply prints_text.
    + eapply prints_bind; [apply prints_Write|].
      eapply prints_bind; [apply prints_ret|].
      eapply prints_bind;
        [apply prints_at_index, (index_last _ LF); discriminate|].
      apply prints_when.
    + unfold body_text. rewrite !append_nil_r || idtac.
      destruct (Ascii.eqb (last (c :: body) LF) LF); reflexivity.
Qed.

Lemma concat_numbered_cons (sep : string)
  (f : Z * report.Report -> string)
  (z : Z) (rep : report.Report) (rest : list report.Report) :
  String.concat sep (map f (numbered z (rep :: rest)))
  = f (z, rep) ++ (if len rest >? 0 then sep else "")
    ++ String.concat sep (map f (numbered (z + 1) rest)).
Proof.
  destruct rest as [|y l]; cbn [String.concat numbered map].
  - cbn. now rewrite append_nil_r.
  - reflexivity.
Qed.

Lemma printHuman_loop_prints (reports : list report.Report) :
  forall idx n,
    n = idx + len reports ->
    prints (printHuman_loop idx n reports)
      (String.concat divider
         (map (fun p => block (fst p) (snd p)) (numbered (idx + 1) reports)))
      tt.
Proof.
  induction reports as [|rep rest IH]; intros idx n Hn.
  - apply prints_ret.
  - rewrite concat_numbered_cons. cbn [printHuman_loop fst snd].
    eapply prints_text.
    + repeat (eapply prints_bind;
              [first [apply prints_Printf | apply prints_when
                     | apply body_prints]|]).
      apply (IH (idx + 1) n). rewrite Hn. unfold len. cbn [List.length]. lia.
    + unfold block, labeled_lines.
      replace (idx + 1 <? n) with (len rest >? 0)
        by (rewrite Hn; unfold len; cbn [List.length];
            rewrite Z.gtb_ltb; apply eq_true_iff_eq;
            rewrite !Z.ltb_lt; lia).
      destruct (report.AltTitles rep) as [|alt alts];
        [replace (len (@nil string) >? 0) with false by reflexivity
        |replace (len (alt :: alts) >? 0) with true by reflexivity];
        destruct (report.Frame rep =? "")%string;
        destruct (report.CorruptedReason rep =? "")%string;
        cbn [negb]; unfold strings_Join, divider;
        rewrite ?append_assoc, ?append_nil_r; reflexivity.
Qed.

Lemma printHuman_prints (reports : list report.Report) :
  prints (printHuman reports) (human_text reports) tt.
Proof. apply (printHuman_loop_prints reports 0). lia. Qed.

Lemma numbered_numbers (reports : list report.Report) (first : nat) :
  map fst (numbered (Z.of_nat first) reports)
  = map Z.of_nat (seq first (List.length reports)).
Proof.
  revert first; induction reports as [|rep rest IH]; intros first;
    [reflexivity|].
  cbn [numbered map fst List.length seq]. f_equal.
  rewrite <- IH. f_equal. f_equal. lia.
Qed.

(** C5: [printHuman] prints one block per report, numbered "Crash #1",
    "Crash #2", ... in order: the heading, the labeled lines, an empty
    line, and the body as it is, with a newline added when its last byte
    is not one, or "(empty report body)" for an empty body.  A divider
    line "---" between empty lines stands between each two consecutive
    blocks and nowhere else. *)
Theorem printHuman_blocks (reports : list report.Report) (w : World) :
  stdout_err w = None ->
  printHuman reports w = (Ret tt, printed w (human_text reports))
  /\ map fst (numbered 1 reports)
     = map Z.of_nat (seq 1 (List.length reports))
  /\ (forall rep, human_text [rep] = block 1 rep)
  /\ (forall r1 r2 rest,
        human_text (r1 :: r2 :: rest)
        = block 1 r1 ++ nl ++ "---" ++ nl ++ nl
          ++ String.concat divider
               (map (fun p => block (fst p) (snd p))
                  (numbered 2 (r2 :: rest)))).
Proof.
  intros H. split; [|split; [|split]].
  - now apply printHuman_prints.
  - apply (numbered_numbers reports 1).
  - reflexivity.
  - intros r1 r2 rest. unfold human_text, divider.
    cbn [numbered map String.concat fst snd Z.add Pos.add].
    now rewrite !append_assoc.
Qed.

(** *** printHuman does not panic *)

Lemma last_byte_in_range (body : bytes) :
  (len body =? 0) = false ->
  exists last, index body (len body - 1) = Some last.
Proof.
  intros H. destruct body as [|c body]; [discriminate|].
  exists (last (c :: body) LF). apply index_last. discriminate.
Qed.

Lemma safe_tool_Failf {A} (msg : string) : safe (@tool_Failf _ _ A msg).
Proof.
  unfold tool_Failf. apply safe_bind; intros; auto with safety.
Qed.

Lemma safe_body (body : bytes) :
  safe
    (if len body =? 0 then Printf ("(empty report body)" ++ nl)
     else
       err <- os_Stdout_Write (string_of_bytes body) ;;
       match err with
       | Some err => tool_Fail err
       | None => ret tt
       end ;;
       last <- at_index body (len body - 1) ;;
       if negb (Ascii.eqb last LF) then Printf nl else ret tt).
Proof.
  destruct (len body =? 0) eqn:E; [apply safe_Printf|].
  apply safe_bind; [apply safe_Write|intros err].
  apply safe_bind;
    [destruct err; [apply safe_tool_Failf|apply safe_ret]|intros _].
  apply safe_bind.
  - apply safe_at_index. apply Z.eqb_neq in E. unfold len in *. lia.
  - intros last. destruct (negb (Ascii.eqb last LF)); auto with safety.
Qed.

Lemma safe_printHuman_loop (reports : list report.Report) :
  forall idx n, safe (printHuman_loop idx n reports).
Proof.
  induction reports as [|rep rest IH]; intros idx n; cbn [printHuman_loop].
  - apply safe_ret.
  - repeat (apply safe_bind;
            [first [apply safe_Printf | apply safe_body
                   | match goal with
                     | |- safe (if ?b then _ else _) =>
                         destruct b; auto with safety
                     end]
            |intros _]).
    apply IH.
Qed.

(** C10: [printHuman] reads the last byte of a body only where the body is
    not empty, and there the index [len(body)-1] is in range; read on an
    empty body the same index would be out of range.  So [printHuman] does
    not panic, on any reports and in any state of the standard output. *)
Theorem printHuman_never_panics :
  (forall reports w, is_panic (fst (printHuman reports w)) = false)
  /\ (forall body : bytes,
        (len body =? 0) = false ->
        exists last, index body (len body - 1) = Some last)
  /\ index (@nil ascii) (len (@nil ascii) - 1) = None.
Proof.
  split; [|split].
  - intros reports w. apply safe_printHuman_loop.
  - apply last_byte_in_range.
  - reflexivity.
Qed.

(** *** main does not panic *)

Lemma safe_called (c : Call) : safe (called c).
Proof. now intros w. Qed.

Lemma safe_loadReporterConfig (fl : Flags) : safe (loadReporterConfig fl).
Proof.
  intros w. destruct (loadReporterConfig_returns fl w) as (l & w1 & ->).
  reflexivity.
Qed.

Lemma safe_startup (cl : CommandLine) : safe (startup cl).
Proof.
  unfold startup, usage, call_NewReporter, call_ReadFile.
  repeat (apply safe_bind;
          [first [apply safe_loadReporterConfig | apply safe_called
                 | apply safe_Eprintf | apply safe_ret
                 | match goal with
                   | |- safe (if ?b then _ else _) => destruct b
                   | |- safe (match ?x with _ => _ end) => destruct x
                   end;
                   auto using safe_tool_Failf, safe_bind with safety]
          |intros ?]).
  apply safe_ret.
Qed.

Lemma safe_emitJSON (reports : list report.Report) : safe (emitJSON reports).
Proof.
  intros w. unfold emitJSON, bind at 1. rewrite emitJSON_out.
  unfold bind, Encode, os_Stdout_Write.
  destruct (stdout_err w); reflexivity.
Qed.

Lemma safe_call_IsSuppressed (r : Reporter) (d : bytes) :
  safe (call_IsSuppressed r d).
Proof.
  unfold call_IsSuppressed.
  apply safe_bind; [apply safe_called|intros _; apply safe_ret].
Qed.

Lemma safe_present (fl : Flags) (r : Reporter) (d : bytes) :
  safe (present fl r d).
Proof.
  intros w. unfold present, bind at 1. rewrite parseReports_run.
  destruct (len (parsed fl r d) =? 0).
  - destruct (flagJSON fl); [apply safe_Printf|].
    apply safe_bind; [apply safe_Printf|intros _].
    apply safe_bind; [apply safe_call_IsSuppressed|].
    intros b; destruct b; [apply safe_Printf|apply safe_ret].
  - destruct (flagJSON fl);
      [apply safe_emitJSON|apply safe_printHuman_loop].
Qed.

(** X1: no run of [main] panics: the index reads of [loadReporterConfig],
    the slot writes of [emitJSON] and the last-byte read of [printHuman]
    are all in range. *)
Lemma main_never_panics (cl : CommandLine) (w : World) :
  is_panic (fst (main cl w)) = false.
Proof.
  rewrite main_startup.
  apply (safe_bind (startup cl)); [apply safe_startup|].
  intros [r d]. apply safe_present.
Qed.

(** C6: with any number of positional arguments other than one, [main]
    writes the usage line and the flag defaults to the standard error and
    exits with status 1; no collaborator has been called by then (no
    configuration, reporter, log or parse) and nothing is printed.  So a
    run in which some collaborator is called had exactly one positional
    argument. *)
Theorem main_requires_one_argument (cl : CommandLine) (w : World) :
  (flag_NArg cl <> 1 ->
   main cl w = (Exit 1, reported w usage_text)
   /\ calls (snd (main cl w)) = calls w
   /\ stdout (snd (main cl w)) = stdout w)
  /\ (calls (snd (main cl w)) <> calls w -> flag_NArg cl = 1).
Proof.
  assert (H : flag_NArg cl <> 1 ->
              main cl w = (Exit 1, reported w usage_text)).
  { intros N.
    exact (main_exit_in_startup cl w _ 1 (startup_wrong_arity cl w N)). }
  split.
  - intros N. rewrite (H N). repeat split.
  - intros C. destruct (Z.eq_dec (flag_NArg cl) 1) as [E|N]; [exact E|].
    exfalso. apply C. now rewrite (H N).
Qed.

(** C7: a settings file that does not load, a target that does not
    resolve and a log that cannot be read each end the run at once: the
    error is written to the standard error and the process exits with a
    non-zero status.  The failing call is the last call made (nothing is
    tried again), and an unresolved target ends the run before a reporter
    is made, the log is read or anything is parsed. *)
Theorem main_fatal_errors (cl : CommandLine) (w : World) :
  flag_NArg cl = 1 ->
  let fl := flag_Parse cl in
  (forall e,
      flagConfig fl <> "" ->
      config_LoadFile (flagConfig fl) mgrconfig_DefaultValues = Err e ->
      main cl w
      = (Exit (Z.pos tool_status),
         reported (logged w (CallLoadFile (flagConfig fl)))
           (tool_report ("failed to load config: " ++ e))))
  /\ (forall cfg w' targetOS targetVMArch targetArch,
         settings_in_effect fl w cfg w' ->
         chosen_target fl cfg = (targetOS, targetVMArch, targetArch) ->
         targets_Get targetOS targetVMArch = None ->
         main cl w
         = (Exit (Z.pos tool_status),
            reported (logged w' (CallTargetsGet targetOS targetVMArch))
              (tool_report
                 ("failed to load config: "
                  ++ unknown_target targetOS targetVMArch))))
  /\ (forall cfg w1 reporter e,
         loadReporterConfig fl w = (Ret (Ok cfg), w1) ->
         report_NewReporter cfg = Ok reporter ->
         os_ReadFile (flag_Arg cl 0) = Err e ->
         main cl w
         = (Exit (Z.pos tool_status),
            reported
              (logged (logged w1 CallNewReporter)
                 (CallReadFile (flag_Arg cl 0)))
              (tool_report ("failed to read log file: " ++ e))))
  /\ Z.pos tool_status <> 0.
Proof.
  intros HN fl. repeat split.
  - intros e Hc He. apply main_exit_in_startup.
    now rewrite (startup_steps cl w _ (Err e) HN
                   (loadReporterConfig_load_error fl w e Hc He)).
  - intros cfg w' o v a Hs Hc Hg. apply main_exit_in_startup.
    pose proof (loadReporterConfig_resolve fl w w' cfg o v a Hs Hc) as HL.
    rewrite Hg in HL.
    now rewrite (startup_steps cl w _ _ HN HL).
  - intros cfg w1 reporter e HL HR He. apply main_exit_in_startup.
    rewrite (startup_steps cl w _ _ HN HL). cbv zeta.
    now rewrite HR, He.
  - discriminate.
Qed.

(** C9: [loadReporterConfig] takes the target from the configuration in
    effect when its target string is non-empty and has at least two parts
    between slashes: the OS is the first part, the VM architecture the
    second and the architecture the last.  Otherwise [-os] is the OS and
    [-arch] both architectures.  The chosen OS and VM architecture are
    what it resolves, and the three values are what it writes into the
    configuration it returns. *)
Theorem loadReporterConfig_target (fl : Flags) (w w' : World)
  (cfg : mgrconfig.Config) :
  settings_in_effect fl w cfg w' ->
  let raw := mgrconfig.RawTarget cfg in
  let parts := strings_Split raw "/"%char in
  exists targetOS targetVMArch targetArch,
    ((raw <> "" /\ (2 <= List.length parts)%nat
      /\ targetOS = hd "" parts
      /\ targetVMArch = nth 1 parts ""
      /\ targetArch = last parts "")
     \/ ((raw = "" \/ (List.length parts < 2)%nat)
         /\ targetOS = flagOS fl
         /\ targetVMArch = flagArch fl
         /\ targetArch = flagArch fl))
    /\ loadReporterConfig fl w
       = (Ret match targets_Get targetOS targetVMArch with
              | None => Err (unknown_target targetOS targetVMArch)
              | Some st =>
                  Ok (CompleteKernelDirs
                        (mgrconfig.mkConfig
                           (targetOS ++ "/" ++ targetVMArch)
                           targetOS targetArch targetVMArch (Some st)
                           (mgrconfig.other cfg)))
              end,
          logged w' (CallTargetsGet targetOS targetVMArch)).
Proof.
  intros Hs raw parts.
  destruct (chosen_target fl cfg) as [[o v] a] eqn:C.
  exists o, v, a. split.
  - unfold chosen_target in C. fold raw in C. fold parts in C.
    destruct (String.eqb_spec raw "") as [E|N]; cbn [negb andb] in C.
    + right. injection C as <- <- <-. auto.
    + destruct (Nat.leb_spec 2 (List.length parts)) as [L|L].
      * left. injection C as <- <- <-. auto.
      * right. injection C as <- <- <-. auto.
  - exact (loadReporterConfig_resolve fl w w' cfg o v a Hs C).
Qed.

End Run_facts.

(** ** How a run ends *)

#[export] Instance returns_quietly_Sequential : Sequential returns_quietly.
Proof.
  split; unfold returns_quietly; [reflexivity|].
  intros a b c e H1 H2 E. rewrite (H2 E). now apply H1.
Qed.

#[export] Instance exits_within_Sequential (ok : Z -> Prop) :
  Sequential (exits_within ok).
Proof.
  split; unfold exits_within; [discriminate|].
  intros a b c e _ H2. exact H2.
Qed.

#[export] Instance same_calls_Lasting : Lasting same_calls.
Proof. split; unfold same_calls; [reflexivity|congruence]. Qed.

Section Ends.
Variable Q : World -> Ending -> World -> Prop.
Context {S : Sequential Q}.

Lemma ends_ret {A} (a : A) : ends Q (ret a).
Proof. intros w. apply sequential_ret. Qed.

Lemma ends_bind {A B} (m : M A) (k : A -> M B) :
  ends Q m -> (forall a, ends Q (k a)) -> ends Q (bind m k).
Proof.
  intros Hm Hk w. unfold bind. specialize (Hm w).
  destruct (m w) as [[a|c|] w1]; cbn [fst snd ending] in *;
    [|exact Hm|exact Hm].
  eapply sequential_seq; [exact Hm|apply Hk].
Qed.

End Ends.

(** One step through a program, for [ends]. *)
Create HintDb endings.
Ltac ends_step :=
  match goal with
  | |- ends _ _ => solve [auto with endings]
  | |- ends _ (bind _ _) => apply ends_bind; [exact _| |intros ?]
  | |- ends _ (ret _) => apply ends_ret; exact _
  | |- ends _ (if ?b then _ else _) => destruct b
  | |- ends _ (match ?x with _ => _ end) => destruct x
  end.
Ltac endings := repeat ends_step.

Lemma quiet_Write (s : string) : ends returns_quietly (os_Stdout_Write s).
Proof.
  intros w _. unfold os_Stdout_Write. now destruct (stdout_err w).
Qed.

Lemma quiet_called (c : Call) : ends returns_quietly (called c).
Proof. now intros w _. Qed.

Lemma quiet_os_Exit {A} (c : Z) : ends returns_quietly (@os_Exit A c).
Proof. intros w E. discriminate. Qed.

Lemma quiet_panic {A} : ends returns_quietly (@panic A).
Proof. intros w E. discriminate. Qed.

Lemma quiet_at_index {A} (l : list A) (i : Z) :
  ends returns_quietly (at_index l i).
Proof.
  unfold at_index. destruct (index l i);
    [apply ends_ret; exact _|apply quiet_panic].
Qed.

Lemma quiet_Printf (s : string) : ends returns_quietly (Printf s).
Proof.
  unfold Printf. apply ends_bind; [exact _|apply quiet_Write|].
  intros; apply ends_ret; exact _.
Qed.

Lemma within_Write (ok : Z -> Prop) (s : string) :
  ends (exits_within ok) (os_Stdout_Write s).
Proof.
  intros w c. unfold os_Stdout_Write.
  destruct (stdout_err w); discriminate.
Qed.

Lemma within_called (ok : Z -> Prop) (c : Call) :
  ends (exits_within ok) (called c).
Proof. intros w x. discriminate. Qed.

Lemma within_Eprintf (ok : Z -> Prop) (s : string) :
  ends (exits_within ok) (Eprintf s).
Proof. intros w x. discriminate. Qed.

Lemma within_panic (ok : Z -> Prop) {A} : ends (exits_within ok) (@panic A).
Proof. intros w x. discriminate. Qed.


Lemma within_at_index (ok : Z -> Prop) {A} (l : list A) (i : Z) :
  ends (exits_within ok) (at_index l i).
Proof.
  unfold at_index. destruct (index l i);
    [apply ends_ret; exact _|apply within_panic].
Qed.

Lemma within_Printf (ok : Z -> Prop) (s : string) :
  ends (exits_within ok) (Printf s).
Proof.
  unfold Printf. apply ends_bind; [exact _|apply within_Write|].
  intros; apply ends_ret; exact _.
Qed.

#[export] Hint Resolve quiet_Write quiet_called quiet_os_Exit quiet_panic
  quiet_at_index quiet_Printf within_Write within_called within_Eprintf
  within_panic within_at_index within_Printf : endings.

Lemma increasing_cons (x y : nat) (l : list nat) :
  increasing (x :: y :: l) = ((x <? y)%nat && increasing (y :: l)).
Proof. reflexivity. Qed.

(** Two growing runs, the first below a bound and the second from it on,
    make one growing run. *)
Lemma increasing_app (l1 l2 : list nat) (bound : nat) :
  increasing l1 = true -> increasing l2 = true ->
  Forall (fun x => (x < bound)%nat) l1 ->
  Forall (fun x => (bound <= x)%nat) l2 ->
  increasing (l1 ++ l2) = true.
Proof.
  induction l1 as [|x l1 IH]; intros H1 H2 F1 F2; [exact H2|].
  inversion F1 as [|? ? Hx F1']; subst.
  destruct l1 as [|y l1].
  - destruct l2 as [|z l2]; [reflexivity|].
    inversion F2 as [|? ? Hz _]; subst.
    change (increasing (x :: z :: l2) = true).
    rewrite increasing_cons, H2, andb_true_r. apply Nat.ltb_lt. lia.
  - change (increasing (x :: y :: (l1 ++ l2)) = true).
    rewrite increasing_cons in *. apply andb_true_iff in H1 as [Hxy H1].
    rewrite Hxy. apply (IH H1 H2 F1' F2).
Qed.

Lemma same_calls_Eprintf (s : string) : preserves same_calls (Eprintf s).
Proof. now intros w. Qed.

Lemma same_calls_Write (s : string) :
  preserves same_calls (os_Stdout_Write s).
Proof.
  intros w. unfold same_calls, os_Stdout_Write.
  now destruct (stdout_err w).
Qed.

#[export] Hint Resolve same_calls_Eprintf same_calls_Write : frames.

(** ** Further facts *)

Section Further_facts.
Context {T : PkgTypes} {P : Packages}.

(** X4: a reporter that cannot be made ends the run: the error is reported
    and the process exits with a non-zero status right after the call of
    [report.NewReporter]; the log file is never read. *)
Theorem main_reporter_error (cl : CommandLine) (w w1 : World)
  (cfg : mgrconfig.Config) (e : string) :
  flag_NArg cl = 1 ->
  loadReporterConfig (flag_Parse cl) w = (Ret (Ok cfg), w1) ->
  report_NewReporter cfg = Err e ->
  main cl w
  = (Exit (Z.pos tool_status),
     reported (logged w1 CallNewReporter)
       (tool_report ("failed to create reporter: " ++ e)))
  /\ stdout (snd (main cl w)) = stdout w
  /\ forall path,
       In (CallReadFile path) (calls (snd (main cl w))) ->
       In (CallReadFile path) (calls w).
Proof.
  intros HN HL HR.
  assert (E : main cl w
              = (Exit (Z.pos tool_status),
                 reported (logged w1 CallNewReporter)
                   (tool_report ("failed to create reporter: " ++ e)))).
  { apply main_exit_in_startup.
    rewrite (startup_steps cl w _ _ HN HL). cbv zeta. now rewrite HR. }
  split; [exact E|]. rewrite E. cbn [snd reported logged stdout calls].
  split.
  - pose proof (same_output_loadReporterConfig (flag_Parse cl) w) as S.
    rewrite HL in S. apply S.
  - intros path H. apply in_app_or in H as [H|[H|[]]]; [|discriminate].
    assert (Q : preserves (no_new_call (CallReadFile path))
                  (loadReporterConfig (flag_Parse cl))).
    { unfold loadReporterConfig, call_LoadFile, call_targets_Get. frames. }
    specialize (Q w). rewrite HL in Q. now apply Q.
Qed.

(** X5: a run that parses reports without [-json] prints their blocks, as
    [printHuman] lays them out, and nothing else, and returns. *)
Theorem main_human_output (cl : CommandLine) (w w1 : World)
  (reporter : Reporter) (logData : bytes) (reports : list report.Report) :
  startup cl w = (Ret (reporter, logData), w1) ->
  fst (parseReports (flag_Parse cl) reporter logData w1) = Ret reports ->
  reports <> [] ->
  flagJSON (flag_Parse cl) = false ->
  stdout_err w = None ->
  main cl w
  = (Ret tt,
     printed (logged w1 (parse_call (flag_Parse cl))) (human_text reports))
  /\ stdout (snd (main cl w)) = stdout w ++ human_text reports.
Proof.
  intros Hs Hp Hn Hj Hw.
  destruct (startup_output cl w w1 _ Hs) as [So Se].
  apply parseReports_parsed in Hp.
  assert (E : main cl w
              = (Ret tt,
                 printed (logged w1 (parse_call (flag_Parse cl)))
                   (human_text reports))).
  { rewrite (main_after_startup cl w w1 _ _ Hs).
    rewrite present_reports by (now rewrite Hp).
    rewrite Hj, Hp. apply printHuman_prints.
    unfold logged; cbn [stdout_err]. congruence. }
  split; [exact E|]. rewrite E. cbn [snd printed logged stdout].
  now rewrite So.
Qed.

(** *** A standard output that fails *)








(** *** How main ends *)

Lemma quiet_tool_Failf {A} (msg : string) :
  ends returns_quietly (@tool_Failf _ _ A msg).
Proof. intros w E. discriminate. Qed.

Lemma quiet_usage_exit {A} (c : Z) :
  ends returns_quietly (usage ;; @os_Exit A c).
Proof. intros w E. discriminate. Qed.

Lemma within_tool_Failf (ok : Z -> Prop) {A} (msg : string) :
  ok (Z.pos tool_status) -> ends (exits_within ok) (@tool_Failf _ _ A msg).
Proof. intros H w x E. injection E as <-. exact H. Qed.

#[local] Hint Resolve quiet_tool_Failf quiet_usage_exit : endings.
#[local] Hint Extern 1 (ends (exits_within _) (tool_Failf _)) =>
  apply within_tool_Failf; auto : endings.
#[local] Hint Extern 1 (ends (exits_within _) (tool_Fail _)) =>
  apply within_tool_Failf; auto : endings.
#[local] Hint Extern 1 (ends returns_quietly (tool_Fail _)) =>
  apply quiet_tool_Failf : endings.

Lemma ends_emitJSON_loop (Q : World -> Ending -> World -> Prop)
  {S : Sequential Q} (reports : list report.Report) :
  (forall A, ends Q (@panic A)) ->
  forall i out, ends Q (emitJSON_loop i reports out).
Proof.
  intros HP.
  induction reports as [|rep rest IH]; intros i out; cbn [emitJSON_loop].
  - apply ends_ret; exact _.
  - apply ends_bind; [exact _| |intros; apply IH].
    unfold assign_index.
    destruct (i <? 0); [apply HP|].
    destruct (set_nth out (Z.to_nat i) (serialize rep));
      [apply ends_ret; exact _|apply HP].
Qed.

Lemma quiet_printHuman_loop (reports : list report.Report) :
  forall idx n, ends returns_quietly (printHuman_loop idx n reports).
Proof.
  induction reports as [|rep rest IH]; intros idx n; cbn [printHuman_loop];
    endings.
Qed.


(** X8: a run of [main] that returns has written nothing to the standard
    error: whatever [main] reports there, it then exits. *)
Theorem main_returns_quietly (cl : CommandLine) (w : World) :
  fst (main cl w) = Ret tt -> stderr (snd (main cl w)) = stderr w.
Proof.
  assert (H : ends returns_quietly (main cl)).
  { pose proof quiet_printHuman_loop as HP.
    pose proof (fun r => ends_emitJSON_loop returns_quietly r
                           (@quiet_panic)) as HE.
    unfold main, loadReporterConfig, parseReports, emitJSON, printHuman,
      Encode, Println, call_LoadFile, call_targets_Get, call_NewReporter,
      call_ReadFile, call_Parse, call_ParseAll, call_IsSuppressed.
    endings. }
  intros E. apply (H w). now rewrite E.
Qed.


(** *** The calls of a run, in order *)

Lemma same_calls_tool_Failf {A} (msg : string) :
  preserves same_calls (@tool_Failf _ _ A msg).
Proof. unfold tool_Failf. frames. Qed.

Lemma same_calls_Printf (s : string) : preserves same_calls (Printf s).
Proof. unfold Printf. frames. Qed.

#[local] Hint Resolve same_calls_tool_Failf same_calls_Printf : frames.

Lemma same_calls_emitJSON (reports : list report.Report) :
  preserves same_calls (emitJSON reports).
Proof.
  assert (L : forall i out,
             preserves same_calls (emitJSON_loop i reports out)).
  { induction reports as [|rep rest IH]; intros i out; cbn [emitJSON_loop];
      unfold assign_index; frames. }
  unfold emitJSON, Encode, tool_Fail. frames.
Qed.

Lemma same_calls_printHuman (reports : list report.Report) :
  preserves same_calls (printHuman reports).
Proof.
  unfold printHuman. generalize 0 (len reports).
  induction reports as [|rep rest IH]; intros idx n; cbn [printHuman_loop];
    unfold tool_Fail; frames.
Qed.

Lemma calls_kept {A} (m : M A) (w : World) :
  preserves same_calls m -> calls (snd (m w)) = calls w.
Proof. intros H. apply H. Qed.

(** The calls of [loadReporterConfig]. *)
Lemma loadReporterConfig_calls (fl : Flags) (w : World) :
  exists loaded w1 cs targetOS targetVMArch,
    loadReporterConfig fl w = (Ret loaded, w1)
    /\ calls w1 = (calls w ++ cs)%list
    /\ In cs [[CallLoadFile (flagConfig fl)];
              [CallTargetsGet targetOS targetVMArch];
              [CallLoadFile (flagConfig fl);
               CallTargetsGet targetOS targetVMArch]].
Proof.
  destruct (String.eqb_spec (flagConfig fl) "") as [E|N].
  - destruct (chosen_target fl mgrconfig_DefaultValues) as [[o v] a] eqn:C.
    eexists _, _, _, o, v. split; [|split].
    + exact (loadReporterConfig_resolve fl w w mgrconfig_DefaultValues o v a
               (or_introl (conj E (conj eq_refl eq_refl))) C).
    + reflexivity.
    + right; left; reflexivity.
  - destruct (config_LoadFile (flagConfig fl) mgrconfig_DefaultValues)
      as [cfg|e] eqn:L.
    + destruct (chosen_target fl cfg) as [[o v] a] eqn:C.
      eexists _, _, _, o, v. split; [|split].
      * exact (loadReporterConfig_resolve fl w _ cfg o v a
                 (or_intror (conj N (conj L eq_refl))) C).
      * unfold logged; cbn [calls]. now rewrite <- app_assoc.
      * right; right; left; reflexivity.
    + eexists _, _, _, "", "". split; [|split].
      * exact (loadReporterConfig_load_error fl w e N L).
      * reflexivity.
      * left; reflexivity.
Qed.

(** The calls of [present]: the parse, then the suppression check on the
    run that finds nothing and prints text. *)
Lemma present_calls (fl : Flags) (r : Reporter) (d : bytes) (w : World) :
  calls (snd (present fl r d w))
  = (calls w
     ++ parse_call fl
        :: (if (len (parsed fl r d) =? 0) && negb (flagJSON fl)
            then [CallIsSuppressed] else []))%list.
Proof.
  unfold present, bind at 1. rewrite parseReports_run.
  destruct (len (parsed fl r d) =? 0); cbn [andb].
  - destruct (flagJSON fl); cbn [negb].
    + unfold Println. now rewrite calls_kept by apply same_calls_Printf.
    + destruct w as [so se cs [e|]];
        destruct (report_IsSuppressed r d) eqn:E;
        cbv [Println Printf bind os_Stdout_Write call_IsSuppressed called
             ret logged fst snd calls stdout stderr stdout_err];
        rewrite E; cbv beta iota; now rewrite <- app_assoc.
  - destruct (flagJSON fl).
    + now rewrite calls_kept by apply same_calls_emitJSON.
    + now rewrite calls_kept by apply same_calls_printHuman.
Qed.

(** X10: in every run, [main] calls its collaborators in one order, each
    at most once: [config.LoadFile], [targets.Get], [report.NewReporter],
    [os.ReadFile], one of [Reporter.Parse] and [report.ParseAll], and
    [report.IsSuppressed]; the one file it loads is the [-config] file and
    the one file it reads is the positional argument. *)
Theorem main_call_order (cl : CommandLine) (w : World) :
  exists cs,
    calls (snd (main cl w)) = (calls w ++ cs)%list
    /\ increasing (map call_rank cs) = true
    /\ (forall path,
          In (CallLoadFile path) cs -> path = flagConfig (flag_Parse cl))
    /\ (forall path, In (CallReadFile path) cs -> path = flag_Arg cl 0).
Proof.
  destruct (Z.eq_dec (flag_NArg cl) 1) as [HN|HN].
  2:{ exists []. rewrite (main_exit_in_startup cl w _ 1
                             (startup_wrong_arity cl w HN)).
      cbn [snd reported calls]. rewrite app_nil_r.
      repeat split; intros path []. }
  destruct (loadReporterConfig_calls (flag_Parse cl) w)
    as (loaded & w1 & cs1 & o & v & HL & Hc & Hin).
  pose proof (startup_steps cl w w1 loaded HN HL) as HS.
  assert (Hcs1 : increasing (map call_rank cs1) = true
                 /\ (forall path, In (CallLoadFile path) cs1 ->
                                  path = flagConfig (flag_Parse cl))
                 /\ (forall path, ~ In (CallReadFile path) cs1)
                 /\ Forall (fun c => (call_rank c < 2)%nat) cs1).
  { destruct Hin as [<-|[<-|[<-|[]]]]; cbn;
      (split; [reflexivity|]);
      (split; [intros path Hp;
               repeat (destruct Hp as [Hp|Hp]; try discriminate;
                       try (now injection Hp as <-));
               contradiction|]);
      (split; [intros path Hp;
               repeat (destruct Hp as [Hp|Hp]; try discriminate);
               contradiction|]);
      repeat constructor. }
  destruct Hcs1 as (Hinc & Hload & Hread & Hlow).
  assert (Tail : forall tail,
             increasing (map call_rank tail) = true ->
             Forall (fun c => (2 <= call_rank c)%nat) tail ->
             increasing (map call_rank (cs1 ++ tail)) = true).
  { intros tail Ht Hge. rewrite map_app.
    apply (increasing_app _ _ 2 Hinc Ht); now apply Forall_map. }
  assert (Done : forall (final tail : list Call),
             final = (calls w1 ++ tail)%list ->
             increasing (map call_rank tail) = true ->
             Forall (fun c => (2 <= call_rank c)%nat) tail ->
             (forall path, In (CallLoadFile path) tail -> False) ->
             (forall path, In (CallReadFile path) tail ->
                           path = flag_Arg cl 0) ->
             exists cs,
               final = (calls w ++ cs)%list
               /\ increasing (map call_rank cs) = true
               /\ (forall path, In (CallLoadFile path) cs ->
                                path = flagConfig (flag_Parse cl))
               /\ (forall path, In (CallReadFile path) cs ->
                                path = flag_Arg cl 0)).
  { intros final tail Hw Ht Hge HnoL HR. exists (cs1 ++ tail)%list.
    split; [rewrite Hw, Hc; now rewrite <- app_assoc|].
    split; [now apply Tail|]. split.
    - intros path Hp. apply in_app_or in Hp as [Hp|Hp];
        [now apply Hload|now exfalso; apply (HnoL path)].
    - intros path Hp. apply in_app_or in Hp as [Hp|Hp];
        [now exfalso; apply (Hread path)|now apply HR]. }
  destruct loaded as [cfg|e].
  2:{ rewrite (main_exit_in_startup cl w _ _ HS).
      cbn [snd reported calls]. apply (Done _ []);
        [now rewrite app_nil_r|reflexivity|constructor
        |intros ? []|intros ? []]. }
  cbv zeta in HS.
  destruct (report_NewReporter cfg) as [reporter|e].
  2:{ rewrite (main_exit_in_startup cl w _ _ HS).
      cbn [snd reported logged calls]. apply (Done _ [CallNewReporter]);
        [reflexivity|reflexivity|repeat constructor
        |intros ? [H|[]]; discriminate|intros ? [H|[]]; discriminate]. }
  destruct (os_ReadFile (flag_Arg cl 0)) as [logData|e].
  2:{ rewrite (main_exit_in_startup cl w _ _ HS).
      cbn [snd reported logged calls].
      apply (Done _ [CallNewReporter; CallReadFile (flag_Arg cl 0)]);
        [now rewrite <- app_assoc|reflexivity|repeat constructor
        |intros ? [H|[H|[]]]; discriminate
        |intros ? [H|[H|[]]]; [discriminate|now injection H as <-]]. }
  rewrite (main_after_startup cl w _ _ _ HS), present_calls.
  cbn [logged calls].
  apply (Done _ ([CallNewReporter; CallReadFile (flag_Arg cl 0)]
                 ++ parse_call (flag_Parse cl)
                    :: (if (len (parsed (flag_Parse cl) reporter logData)
                            =? 0)
                           && negb (flagJSON (flag_Parse cl))
                        then [CallIsSuppressed] else []))%list).
  - now rewrite <- !app_assoc.
  - unfold parse_call.
    destruct (flagAll (flag_Parse cl)),
      ((len (parsed (flag_Parse cl) reporter logData) =? 0)
       && negb (flagJSON (flag_Parse cl))); reflexivity.
  - unfold parse_call.
    destruct (flagAll (flag_Parse cl)),
      ((len (parsed (flag_Parse cl) reporter logData) =? 0)
       && negb (flagJSON (flag_Parse cl))); repeat constructor.
  - unfold parse_call. intros path Hp.
    destruct (flagAll (flag_Parse cl)),
      ((len (parsed (flag_Parse cl) reporter logData) =? 0)
       && negb (flagJSON (flag_Parse cl))); cbn in Hp;
      repeat (destruct Hp as [Hp|Hp]; try discriminate); contradiction.
  - unfold parse_call. intros path Hp.
    destruct (flagAll (flag_Parse cl)),
      ((len (parsed (flag_Parse cl) reporter logData) =? 0)
       && negb (flagJSON (flag_Parse cl))); cbn in Hp;
      repeat (destruct Hp as [Hp|Hp]; try discriminate;
              try (now injection Hp as <-)); contradiction.
Qed.

(** *** A target string of two parts *)

Lemma split_acc_nonempty (sep : ascii) (s cur : string) :
  split_acc sep s cur <> [].
Proof.
  revert cur; induction s as [|c s IH]; intros cur; cbn [split_acc];
    [discriminate|].
  destruct (Ascii.eqb c sep); [discriminate|apply IH].
Qed.

(** Joining the parts with the separator gives the string back. *)
Lemma split_acc_join (sep : ascii) (s cur : string) :
  String.concat (String sep "") (split_acc sep s cur) = cur ++ s.
Proof.
  revert cur; induction s as [|c s IH]; intros cur; cbn [split_acc].
  - cbn. now rewrite append_nil_r.
  - destruct (Ascii.eqb_spec c sep) as [->|N].
    + specialize (IH "").
      destruct (split_acc sep s "") as [|p ps] eqn:E;
        [now apply split_acc_nonempty in E|].
      change (String.concat (String sep "") (cur :: p :: ps))
        with (cur ++ String sep ""
              ++ String.concat (String sep "") (p :: ps)).
      now rewrite IH.
    + rewrite IH, append_assoc. reflexivity.
Qed.

Lemma strings_Split_join (s : string) (sep : ascii) :
  strings_Join (strings_Split s sep) (String sep "") = s.
Proof. unfold strings_Join, strings_Split. apply split_acc_join. Qed.

(** X11: a target string with exactly two parts is kept as it is:
    [loadReporterConfig] writes back the string it was given, takes the
    second part for both architectures, and resolves the two parts. *)
Theorem loadReporterConfig_two_part_target (fl : Flags) (w w' : World)
  (cfg : mgrconfig.Config) :
  settings_in_effect fl w cfg w' ->
  List.length (strings_Split (mgrconfig.RawTarget cfg) "/"%char) = 2%nat ->
  exists targetOS targetVMArch,
    mgrconfig.RawTarget cfg = targetOS ++ "/" ++ targetVMArch
    /\ loadReporterConfig fl w
       = (Ret match targets_Get targetOS targetVMArch with
              | None => Err (unknown_target targetOS targetVMArch)
              | Some st =>
                  Ok (CompleteKernelDirs
                        (mgrconfig.mkConfig (mgrconfig.RawTarget cfg)
                           targetOS targetVMArch targetVMArch (Some st)
                           (mgrconfig.other cfg)))
              end,
          logged w' (CallTargetsGet targetOS targetVMArch)).
Proof.
  intros Hs Hlen.
  pose proof (strings_Split_join (mgrconfig.RawTarget cfg) "/"%char) as J.
  destruct (strings_Split (mgrconfig.RawTarget cfg) "/"%char)
    as [|p0 [|p1 [|p2 ps]]] eqn:E; try discriminate.
  cbn in J. exists p0, p1. split; [now rewrite <- J|].
  assert (C : chosen_target fl cfg = (p0, p1, p1)).
  { unfold chosen_target. rewrite E.
    destruct (String.eqb_spec (mgrconfig.RawTarget cfg) "") as [Z|_];
      [|reflexivity].
    rewrite Z in E. discriminate. }
  rewrite (loadReporterConfig_resolve fl w w' cfg p0 p1 p1 Hs C).
  unfold resolved_config. now rewrite <- J.
Qed.

(** *** The last byte of the text output *)

Lemma string_of_bytes_app (a b : bytes) :
  string_of_bytes (a ++ b)%list = string_of_bytes a ++ string_of_bytes b.
Proof.
  unfold string_of_bytes.
  induction a as [|c a IH]; cbn; [reflexivity|now rewrite IH].
Qed.

Lemma body_text_newline (body : bytes) : ends_with_newline (body_text body).
Proof.
  destruct body as [|c body].
  - now exists "(empty report body)".
  - assert (N : c :: body <> []) by discriminate.
    destruct (exists_last N) as (init & z & E).
    unfold body_text. rewrite E, last_last.
    destruct (init ++ [z])%list eqn:D;
      [now destruct init|rewrite <- D; clear D].
    destruct (Ascii.eqb_spec z LF) as [->|_].
    + exists (string_of_bytes init).
      now rewrite string_of_bytes_app, append_nil_r.
    + now exists (string_of_bytes (init ++ [z])%list).
Qed.

Lemma blocks_newline (reports : list report.Report) :
  reports <> [] ->
  forall first,
    ends_with_newline
      (String.concat divider
         (map (fun p => block (fst p) (snd p)) (numbered first reports))).
Proof.
  induction reports as [|rep rest IH]; intros N first; [contradiction|].
  destruct rest as [|rep' rest].
  - cbn [numbered map String.concat fst snd]. unfold block.
    destruct (body_text_newline (report.Report_ rep)) as [p ->].
    eexists. now rewrite <- !append_assoc.
  - destruct (IH ltac:(discriminate) (first + 1)) as [p Hp].
    rewrite concat_numbered_cons, Hp.
    eexists. now rewrite <- !append_assoc.
Qed.

(** X12: whatever the bodies of the reports end with, the text that
    [printHuman] prints for one report or more ends with a newline. *)
Theorem printHuman_ends_with_newline (reports : list report.Report)
  (w : World) :
  reports <> [] ->
  stdout_err w = None ->
  exists text,
    printHuman reports w = (Ret tt, printed w text)
    /\ ends_with_newline text.
Proof.
  intros N H. exists (human_text reports). split.
  - now apply printHuman_prints.
  - now apply blocks_newline.
Qed.

(** *** Success *)

(** X13: once the reporter is made and the log is read, [main] returns
    whatever the parse finds, when the standard output works: no report,
    one or many, suppressed or corrupted, the run is a success. *)
Theorem main_succeeds (cl : CommandLine) (w w1 : World)
  (reporter : Reporter) (logData : bytes) :
  startup cl w = (Ret (reporter, logData), w1) ->
  stdout_err w = None ->
  fst (main cl w) = Ret tt.
Proof.
  intros Hs Hw.
  destruct (startup_output cl w w1 _ Hs) as [So Se].
  assert (H1 : stdout_err (logged w1 (parse_call (flag_Parse cl))) = None)
    by (unfold logged; cbn [stdout_err]; congruence).
  rewrite (main_after_startup cl w w1 _ _ Hs).
  destruct (parsed (flag_Parse cl) reporter logData) as [|rep reps] eqn:Hp.
  - destruct (flagJSON (flag_Parse cl)) eqn:Hj.
    + rewrite present_no_reports_json by (auto; congruence). reflexivity.
    + rewrite present_no_reports_text by (auto; congruence). reflexivity.
  - rewrite present_reports by (rewrite Hp; discriminate).
    destruct (flagJSON (flag_Parse cl)).
    + now rewrite emitJSON_run.
    + now rewrite printHuman_prints.
Qed.

(** X14: when the configuration in effect names a target of two parts or
    more, the flags [-os] and [-arch] have no effect: two runs of
    [loadReporterConfig] that differ in these flags alone end alike. *)
Theorem loadReporterConfig_flags_overridden (fl fl' : Flags) (w w' : World)
  (cfg : mgrconfig.Config) :
  flagConfig fl' = flagConfig fl ->
  settings_in_effect fl w cfg w' ->
  mgrconfig.RawTarget cfg <> "" ->
  (2 <= List.length (strings_Split (mgrconfig.RawTarget cfg) "/"%char))%nat ->
  loadReporterConfig fl' w = loadReporterConfig fl w.
Proof.
  intros Hc Hs Hr Hl.
  assert (Hs' : settings_in_effect fl' w cfg w').
  { unfold settings_in_effect in *. now rewrite Hc. }
  assert (C : forall f,
             chosen_target f cfg
             = (hd "" (strings_Split (mgrconfig.RawTarget cfg) "/"),
                nth 1 (strings_Split (mgrconfig.RawTarget cfg) "/") "",
                last (strings_Split (mgrconfig.RawTarget cfg) "/") "")).
  { intros f. unfold chosen_target.
    destruct (String.eqb_spec (mgrconfig.RawTarget cfg) "") as [E|_];
      [contradiction|].
    apply Nat.leb_le in Hl. cbv zeta. now rewrite Hl. }
  rewrite (loadReporterConfig_resolve fl w w' cfg _ _ _ Hs (C fl)).
  now rewrite (loadReporterConfig_resolve fl' w w' cfg _ _ _ Hs' (C fl')).
Qed.

End Further_facts.

(** ** The theorems at work on the small instance *)

Section Examples.
Import Demo.

(** Two runs of [main] on a log with two markers, the second with [-all]. *)
Example main_first_report :
  stdout (snd (main (mkCommandLine [] ["log.txt"]) world0))
  = "Crash #1
Title: marker
Type: UNKNOWN
Range: [4, 5], next 5
Suppressed: false
Corrupted: false

!
".
Proof. reflexivity. Qed.

Example main_all_reports :
  stdout (snd (main (mkCommandLine [OptAll true] ["log.txt"]) world0))
  = "Crash #1
Title: marker
Type: UNKNOWN
Range: [4, 5], next 5
Suppressed: false
Corrupted: false

!

---

Crash #2
Title: marker
Type: UNKNOWN
Range: [10, 11], next 11
Suppressed: false
Corrupted: false

!
".
Proof. reflexivity. Qed.

(** Every optional line, and an empty body. *)
Example printHuman_two_reports :
  stdout (snd (printHuman [rep1; rep2] world0))
  = "Crash #1
Title: KASAN: use-after-free
Type: KASAN
Alt titles: UAF, kasan
Frame: foo
Range: [3, 9], next 9
Suppressed: false
Corrupted: true (truncated)

oops

---

Crash #2
Title: panic
Type: PANIC
Range: [10, 10], next 11
Suppressed: true
Corrupted: false

(empty report body)
".
Proof. reflexivity. Qed.

(** The layout of nested arrays under the encoder of [emitJSON]. *)
Example encode_nested_arrays :
  encode (SetIndent json_NewEncoder "" "  ") 0
    (JArray [JNum 1; JArray [JNum 2; JBool true]; JArray []; JNull])
  = "[
  1,
  [
    2,
    true
  ],
  [],
  null
]".
Proof. reflexivity. Qed.

(** The fields of the two reports: all twelve, and the eight that are
    never omitted. *)
Example report_object_keys :
  object_keys (report_object rep1) = report_keys
  /\ object_keys (report_object rep2)
     = ["title"; "type"; "start_pos"; "end_pos"; "skip_pos"; "suppressed";
        "corrupted"; "report"].
Proof. split; reflexivity. Qed.

(** A standard output that fails ends both printers with the error. *)
Example printing_to_a_closed_output :
  let w := mkWorld "" "" [] (Some "EPIPE") in
  emitJSON [rep1] w = (Exit 1, reported w ("EPIPE" ++ nl))
  /\ printHuman [rep1] w = (Exit 1, reported w ("EPIPE" ++ nl)).
Proof. split; reflexivity. Qed.

(** The demo parser makes progress, so ParseAll ends by itself. *)
Example demo_ParseAll_ends (extra : nat) :
  ParseAll_from parseFrom (extra + S (S (List.length log))) "!"%char log 0
  = ParseAll_spec parseFrom "!"%char log.
Proof.
  apply ParseAll_spec_enough. intros pos rep.
  assert (F : forall buf off at_,
             find_marker "!" buf off pos = Some at_ ->
             pos <= at_ /\ off <= at_ < off + len buf).
  { induction buf as [|c buf IH]; intros off at_ H; [discriminate|].
    cbn [find_marker] in H.
    destruct ((pos <=? off) && Ascii.eqb c "!") eqn:E.
    - injection H as <-. apply andb_true_iff in E as [E _].
      apply Z.leb_le in E. unfold len. cbn [List.length]. lia.
    - apply IH in H. unfold len in *. cbn [List.length]. lia. }
  unfold parseFrom. destruct (find_marker "!" log 0 pos) as [at_|] eqn:E;
    [|discriminate].
  intros H. injection H as <-. apply F in E.
  cbn [report.StartPos report.SkipPos]. lia.
Qed.

(** *** Witnesses *)

Lemma parseReports_first_or_all_witness :
  follows_protocol packages parseFrom
  /\ parseReports (flag_Parse (mkCommandLine [OptJSON true] [])) "!"%char
       log world0
     = (Ret (single (Reporter_Parse "!"%char log)), logged world0 CallParse)
  /\ parseReports (flag_Parse (mkCommandLine [OptAll true] [])) "!"%char
       log world0
     = (Ret (report_ParseAll "!"%char log), logged world0 CallParseAll)
  /\ single (Reporter_Parse "!"%char log)
     = firstn 1 (report_ParseAll "!"%char log).
Proof.
  assert (H : follows_protocol packages parseFrom)
    by (split; reflexivity).
  split; [exact H|].
  split; [|split].
  - apply (parseReports_first_or_all (P := packages)
             (mkCommandLine [OptJSON true] [])). reflexivity.
  - apply (parseReports_first_or_all (P := packages)
             (mkCommandLine [OptAll true] [])). reflexivity.
  - exact (proj2 (proj2 (parseReports_first_or_all (P := packages)
                           (mkCommandLine [] []) "!"%char log world0))
             parseFrom H).
Defined.

Lemma emitJSON_objects_witness :
  stdout_err world0 = None
  /\ emitJSON [rep1; rep2] world0
     = (Ret tt,
        printed world0
          (encode (SetIndent json_NewEncoder "" "  ") 0
             (JArray [report_object rep1; report_object rep2]) ++ nl)).
Proof.
  split; [reflexivity|].
  apply (emitJSON_objects (P := packages) [rep1; rep2] world0). reflexivity.
Defined.

Lemma no_reports_message_witness :
  stdout (snd (main (mkCommandLine [] ["quiet.txt"]) world0))
  = "no crash reports found in log
note: log matched suppression patterns for this target
"
  /\ stdout (snd (main (mkCommandLine [OptAll true] ["clean.txt"]) world0))
     = "no crash reports found in log
".
Proof.
  split.
  - rewrite (proj1 (no_reports_message (P := packages)
                      (mkCommandLine [] ["quiet.txt"]) world0)
               "!"%char (list_ascii_of_string "# all good")
               (mkWorld "" ""
                  [CallTargetsGet "linux" "amd64"; CallNewReporter;
                   CallReadFile "quiet.txt"] None)
               eq_refl eq_refl eq_refl eq_refl).
    reflexivity.
  - rewrite (proj1 (no_reports_message (P := packages)
                      (mkCommandLine [OptAll true] ["clean.txt"]) world0)
               "!"%char (list_ascii_of_string "all good")
               (mkWorld "" ""
                  [CallTargetsGet "linux" "amd64"; CallNewReporter;
                   CallReadFile "clean.txt"] None)
               eq_refl eq_refl eq_refl eq_refl).
    reflexivity.
Defined.

Lemma json_mode_output_witness :
  stdout (snd (main (mkCommandLine [OptJSON true] ["clean.txt"]) world0))
  = "[]
"
  /\ stdout
       (snd (main (mkCommandLine [OptJSON true; OptAll true] ["log.txt"])
               world0))
     = two_space 0
         (JArray (map report_object (report_ParseAll "!"%char log))) ++ nl.
Proof.
  split.
  - apply (json_mode_output (P := packages)
             (mkCommandLine [OptJSON true] ["clean.txt"])
             world0
             (mkWorld "" ""
                [CallTargetsGet "linux" "amd64"; CallNewReporter;
                 CallReadFile "clean.txt"] None)
             "!"%char (list_ascii_of_string "all good") []);
      reflexivity.
  - apply (json_mode_output (P := packages)
             (mkCommandLine [OptJSON true; OptAll true] ["log.txt"])
             world0
             (mkWorld "" ""
                [CallTargetsGet "linux" "amd64"; CallNewReporter;
                 CallReadFile "log.txt"] None)
             "!"%char log
             (report_ParseAll (Packages := packages) "!"%char log));
      reflexivity.
Defined.

Lemma printHuman_blocks_witness :
  stdout_err world0 = None
  /\ printHuman [rep1; rep2] world0
     = (Ret tt, printed world0 (human_text [rep1; rep2])).
Proof.
  split; [reflexivity|].
  apply (printHuman_blocks (P := packages) [rep1; rep2] world0). reflexivity.
Defined.

Lemma main_requires_one_argument_witness :
  flag_NArg (mkCommandLine [OptAll true] ["a.txt"; "b.txt"]) <> 1
  /\ main (mkCommandLine [OptAll true] ["a.txt"; "b.txt"]) world0
     = (Exit 1, reported world0 usage_text)
  /\ main (mkCommandLine [] []) world0
     = (Exit 1, reported world0 usage_text).
Proof.
  split; [discriminate|]. split.
  - apply (main_requires_one_argument (P := packages)
             (mkCommandLine [OptAll true] ["a.txt"; "b.txt"]) world0).
    discriminate.
  - apply (main_requires_one_argument (P := packages)
             (mkCommandLine [] []) world0).
    discriminate.
Defined.

Lemma main_fatal_errors_witness :
  main (mkCommandLine [OptConfig "mgr"] ["log.txt"]) world0
  = (Exit 1,
     mkWorld "" ("failed to load config: no such file" ++ nl)
       [CallLoadFile "mgr"] None)
  /\ main (mkCommandLine [OptOS "bsd"] ["log.txt"]) world0
     = (Exit 1,
        mkWorld ""
          ("failed to load config: "
           ++ "unknown target: bsd/amd64 (supported: [linux])" ++ nl)
          [CallTargetsGet "bsd" "amd64"] None)
  /\ main (mkCommandLine [] ["missing.txt"]) world0
     = (Exit 1,
        mkWorld "" ("failed to read log file: no such file" ++ nl)
          [CallTargetsGet "linux" "amd64"; CallNewReporter;
           CallReadFile "missing.txt"] None).
Proof.
  split; [|split].
  - apply (main_fatal_errors (P := packages)
             (mkCommandLine [OptConfig "mgr"] ["log.txt"])
             world0 eq_refl); [discriminate|reflexivity].
  - apply (proj1 (proj2 (main_fatal_errors (P := packages)
                           (mkCommandLine [OptOS "bsd"] ["log.txt"])
                           world0 eq_refl))
             mgrconfig_DefaultValues world0 "bsd" "amd64" "amd64");
      [left; repeat split|reflexivity|reflexivity].
  - apply (proj1 (proj2 (proj2 (main_fatal_errors (P := packages)
                                  (mkCommandLine [] ["missing.txt"])
                                  world0 eq_refl)))
             (mgrconfig.mkConfig (T := types) "linux/amd64" "linux" "amd64"
                "amd64" (Some "amd64") tt)
             (logged world0 (CallTargetsGet "linux" "amd64")) "!"%char
             "no such file"); reflexivity.
Defined.

Lemma loadReporterConfig_target_witness :
  loadReporterConfig (flag_Parse (mkCommandLine [OptConfig "mgr.cfg"] []))
    world0
  = (Ret (Ok (mgrconfig.mkConfig (T := types) "linux/arm64" "linux" "arm"
                "arm64" (Some "arm64") tt)),
     mkWorld "" "" [CallLoadFile "mgr.cfg"; CallTargetsGet "linux" "arm64"]
       None).
Proof.
  destruct (loadReporterConfig_target (P := packages)
              (flag_Parse (mkCommandLine [OptConfig "mgr.cfg"] [])) world0
              (logged world0 (CallLoadFile "mgr.cfg"))
              (mgrconfig.mkConfig (T := types) "linux/arm64/arm" "" "" ""
                 None tt))
    as (o & v & a & [(_ & _ & -> & -> & ->)|([E|E] & _)] & H).
  - right. repeat split. discriminate.
  - exact H.
  - discriminate.
  - vm_compute in E. lia.
Defined.

Lemma flag_os_arch_defaults_witness :
  os_absent (mkCommandLine [OptAll true; OptArch "arm64"] ["log.txt"]) = true
  /\ flagOS (flag_Parse (mkCommandLine [OptAll true; OptArch "arm64"]
                           ["log.txt"]))
     = targets_Linux
  /\ arch_absent (mkCommandLine [OptJSON true] ["log.txt"]) = true
  /\ flagArch (flag_Parse (mkCommandLine [OptJSON true] ["log.txt"]))
     = runtime_GOARCH.
Proof.
  split; [reflexivity|]. split; [|split; [reflexivity|]].
  - apply (proj2 (proj2 (flag_os_arch_defaults (P := packages)))).
    reflexivity.
  - apply (proj2 (proj2 (flag_os_arch_defaults (P := packages)))).
    reflexivity.
Defined.

Lemma printHuman_never_panics_witness :
  is_panic (fst (printHuman [rep1; rep2] world0)) = false
  /\ (len (report.Report_ rep1) =? 0) = false
  /\ exists last,
       index (report.Report_ rep1) (len (report.Report_ rep1) - 1)
       = Some last.
Proof.
  split; [|split; [reflexivity|]].
  - apply (printHuman_never_panics (P := packages)).
  - apply (proj1 (proj2 (printHuman_never_panics (P := packages)))).
    reflexivity.
Defined.


End Examples.

(** ** The further facts at work *)

Section Further_examples.
Import Demo.

Lemma main_reporter_error_witness :
  main (mkCommandLine [OptArch "riscv64"] ["log.txt"]) world0
  = (Exit 1,
     mkWorld "" ("failed to create reporter: no reporter" ++ nl)
       [CallTargetsGet "linux" "riscv64"; CallNewReporter] None).
Proof.
  apply (main_reporter_error (P := packages)
           (mkCommandLine [OptArch "riscv64"] ["log.txt"]) world0
           (logged world0 (CallTargetsGet "linux" "riscv64"))
           (mgrconfig.mkConfig (T := types) "linux/riscv64" "linux"
              "riscv64" "riscv64" (Some "riscv64") tt)
           "no reporter"); reflexivity.
Defined.

Lemma main_human_output_witness :
  stdout (snd (main (mkCommandLine [OptAll true] ["log.txt"]) world0))
  = "" ++ human_text (report_ParseAll "!"%char log).
Proof.
  apply (main_human_output (P := packages)
           (mkCommandLine [OptAll true] ["log.txt"]) world0
           (mkWorld "" ""
              [CallTargetsGet "linux" "amd64"; CallNewReporter;
               CallReadFile "log.txt"] None)
           "!"%char log
           (report_ParseAll (Packages := packages) "!"%char log));
    try reflexivity.
  discriminate.
Defined.



Lemma main_returns_quietly_witness :
  fst (main (mkCommandLine [] ["log.txt"]) world0) = Ret tt
  /\ stderr (snd (main (mkCommandLine [] ["log.txt"]) world0)) = "".
Proof.
  split; [reflexivity|].
  apply (main_returns_quietly (P := packages)
           (mkCommandLine [] ["log.txt"]) world0). reflexivity.
Defined.


Lemma printHuman_ends_with_newline_witness :
  exists text,
    printHuman [rep1] world0 = (Ret tt, printed world0 text)
    /\ ends_with_newline text.
Proof.
  apply (printHuman_ends_with_newline (P := packages) [rep1] world0);
    [discriminate|reflexivity].
Defined.

Lemma main_succeeds_witness :
  fst (main (mkCommandLine [OptJSON true] ["clean.txt"]) world0) = Ret tt.
Proof.
  apply (main_succeeds (P := packages)
           (mkCommandLine [OptJSON true] ["clean.txt"]) world0
           (mkWorld "" ""
              [CallTargetsGet "linux" "amd64"; CallNewReporter;
               CallReadFile "clean.txt"] None)
           "!"%char (list_ascii_of_string "all good")); reflexivity.
Defined.

Lemma loadReporterConfig_flags_overridden_witness :
  loadReporterConfig
    (flag_Parse (mkCommandLine [OptConfig "mgr.cfg"; OptOS "bsd"] []))
    world0
  = loadReporterConfig (flag_Parse (mkCommandLine [OptConfig "mgr.cfg"] []))
      world0.
Proof.
  apply (loadReporterConfig_flags_overridden (P := packages)
           (flag_Parse (mkCommandLine [OptConfig "mgr.cfg"] []))
           (flag_Parse (mkCommandLine [OptConfig "mgr.cfg"; OptOS "bsd"] []))
           world0 (logged world0 (CallLoadFile "mgr.cfg"))
           (mgrconfig.mkConfig (T := types) "linux/arm64/arm" "" "" ""
              None tt)).
  - reflexivity.
  - right. repeat split. discriminate.
  - discriminate.
  - vm_compute. lia.
Defined.

End Further_examples.

Section Two_part_example.

Lemma loadReporterConfig_two_part_target_witness :
  exists targetOS targetVMArch,
    "linux/arm64" = targetOS ++ "/" ++ targetVMArch
    /\ loadReporterConfig (P := Demo2.packages)
         (flag_Parse (P := Demo2.packages)
            (mkCommandLine [OptConfig "two.cfg"] [])) world0
       = (Ret match targets_Get (Packages := Demo2.packages)
                      targetOS targetVMArch with
              | None =>
                  Err (unknown_target (P := Demo2.packages)
                         targetOS targetVMArch)
              | Some st =>
                  Ok (CompleteKernelDirs (Packages := Demo2.packages)
                        (mgrconfig.mkConfig (T := Demo.types) "linux/arm64"
                           targetOS targetVMArch targetVMArch (Some st) tt))
              end,
          logged (logged world0 (CallLoadFile "two.cfg"))
            (CallTargetsGet targetOS targetVMArch)).
Proof.
  apply (loadReporterConfig_two_part_target (P := Demo2.packages)
           (flag_Parse (P := Demo2.packages)
            (mkCommandLine [OptConfig "two.cfg"] [])) world0
           (logged world0 (CallLoadFile "two.cfg"))
           (mgrconfig.mkConfig (T := Demo.types) "linux/arm64" "" "" ""
              None tt)).
  - right. repeat split. discriminate.
  - reflexivity.
Defined.

End Two_part_example.
